(* ===== verification/_CoqProject ===== *)
-Q . S2P
Prelude.v
TsType.v
TsCheck.v
TsSpec.v
TsTerm.v
TsScope.v
Library.v
Jsx.v
Datetime.v
DatetimeEnv.v
DatetimeProps.v
DatetimeModule.v
DatetimeFacts.v
DatetimeOptions.v
DatetimeSpec.v
DatetimeTerm.v
DatetimeJsx.v
