(* ===== verification/Prelude.v ===== *)
(** * The TypeScript typings of react-datetime: a verification development

    ** What the program is

    The repository is one file, [src/react-datetime.d.ts]: ambient type
    declarations, for TypeScript 1.8 (line 6), of a date/time picker React
    component.  It has no executable code.  Its parts are
    - the ambient module [ReactDatetime] (lines 11-193), which imports the
      React typings' namespace under an alias ([import React = __React],
      line 12) and declares
      - the interface [DatetimepickerProps] (lines 15-189): 32 optional
        members, the props of the component, each with a comment saying
        what values it takes and what the widget does with it;
      - the interface [DatetimeComponent] (lines 191-192), which extends
        [React.ComponentClass<DatetimepickerProps>];
    - the ambient external module ['react-datetime'] (lines 195-198), whose
      [export =] gives a consumer a value of type [DatetimeComponent].
    The parts interact through names: the members refer to library types
    ([Date], [Object], [Function], [React.Component], and [Moment]), the
    component interface refers to the props interface, and the export
    refers to the component interface.  A consumer uses them in two ways:
    an object literal typed [DatetimepickerProps] (the props passed to
    [React.createElement(DateTime, {...})] or a variable of that type),
    which the compiler checks as a fresh literal, excess properties
    included; and a JSX element [<DateTime a1={e1} {...o} ... />], whose
    attributes it checks one by one against the props type of the
    component class.  What the file does is the verdict of these checks;
    that is what this development models.

    ** How it is modelled

    The declarations are translated as data (a deep embedding) into the
    type language of the fragment of TypeScript 1.8 they use, and the
    compiler's checks are modelled as executable functions:
    - [Prelude] (this file): three-valued answers of the fuel-bounded
      checker ([option bool], notations [&&?] and [||?] in [tsc_scope]),
      their lemmas, and association lists keyed by strings;
    - [TsType]: the types ([ty]: primitives, string literals, unions,
      function types with named parameters, object types with optional
      members, references to named types with arguments), the declarations
      a name can stand for ([decl]: interface, opaque library type,
      [Object], [Function]), the environment of named types (a stdpp
      [gmap]), the references of a type and decidable equality;
    - [TsCheck]: assignability as TypeScript 1.8 defines it (no
      [strictNullChecks]: [null] and [undefined] go everywhere; [any] and
      the error type of an unresolved name go both ways; parameters
      bivariant; [void] returns accept anything; structural object types;
      the excess-property check of fresh object literals), as a step
      functional [assign_step] iterated with fuel ([assignable]);
    - [TsSpec]: the same relation stated declaratively, as the TypeScript
      specification's assignment compatibility (section 3.11.4): the
      mutually inductive [Assignable] and [Related] (bivariant parameters)
      with one rule per case, and [HasProps], the properties a type is
      known to have; the checker is proved to decide it, and the relation
      to be reflexive on well-formed types ([members_distinct]);
    - [TsTerm]: termination of the checker: with fuel above the weights
      of the two types ([tw]: their size with the declarations of the
      interfaces they name expanded) it answers, in every environment
      whose interfaces are ranked ([ranked]: an interface names only
      interfaces of lower rank);
    - [TsScope]: resolution of qualified names through a module's scope
      (its own declarations and its import aliases);
    - [Library]: the environment the file is compiled against, which is
      not part of the repository ([lib_env]: [Date], [Object], [Function],
      the React typings' [__React.Component], [__React.ComponentClass],
      [__React.ReactElement]; [moment_env] adds the moment typings'
      [moment.Moment]; [member_env] gives [Date], [moment.Moment],
      [__React.Component] and [__React.ReactElement] one or two of their
      real members, as an instance of the hypotheses of C12 and C13), and
      the React typings' contract used by JSX ([component_props]: the
      props type of a component class);
    - [Jsx]: the JSX element check of TypeScript 1.8
      ([checkJsxOpeningLikeElement]): the attributes right to left with a
      table of the names set, spreads checked on the names the props type
      declares, hyphenated names unchecked, required properties set
      ([jsx_element_ok], [jsx_attrs_ok]), and the grammar check of
      [checkGrammarJsxElement] that rejects an attribute name written
      twice (error 17001);
    - [Datetime]: the file itself, [Module ReactDatetime] with one
      definition per member of [DatetimepickerProps] (same names as the
      source), the interface, [DatetimeComponent], the module scope and
      its resolved declarations, and [Module ReactDatetimeExport] with
      [DateTime] and [export]; [program_env L] adds the file's
      declarations to a library environment [L];
    - [DatetimeEnv]: where the declarations sit in [program_env L],
      stated whatever they contain, the hint database [datetime] and the
      tactics [genv] and [decide_closed];
    - [DatetimeFacts]: facts about what the declarations contain (distinct
      member names, every member optional, each declared type accepts
      itself), the reduction of a one-property literal to its member's
      check ([props_single]) and the tactic [single_member].
    The theorem files come in the order [DatetimeProps], [DatetimeModule],
    [DatetimeOptions], [DatetimeSpec], [DatetimeTerm], [DatetimeJsx]: the theorems about the interface as a whole are
    proved from the general lemmas of [TsCheck] and [DatetimeEnv] only, so
    that a change to one declaration breaks the theorem about it and not a
    shared lemma.

    ** What the theorems show

    - [DatetimeProps]: the exact set of fresh object literals the props
      interface accepts (C1), that an undeclared property is rejected
      (C2), and that non-fresh values, primitives and objects none of
      whose names is an option, escape the excess-property check (C21);
    - [DatetimeModule]: JSX on the exported component checks its
      attributes against the props interface's members (C3), and [Moment]
      is the file's only unresolved name in every environment extending
      the library's that does not declare it (C10);
    - [DatetimeOptions]: every set of JSX attributes with distinct names
      naming options, with their declared types, is accepted (C5), and
      per-option behaviour against the comments: the [onBeforeNavigate]
      hook cannot return [false] (C11), the [Object]-typed options accept
      every non-[void] type (C17), the [string|any] callbacks accept every
      one-parameter callback (C18), the view-mode options accept every
      string (C19), the hook's third parameter is unchecked and a fourth
      is refused (C22), swapped navigation-step parameters are refused
      whatever their names and the return type (C23), [isValidDate] takes
      any two-parameter boolean predicate (C24), [onOpen] refuses
      event-style callbacks (C25), the format options take strings and
      booleans only (C26);
    - [DatetimeSpec]: the props check against the declarative relation:
      a fresh attribute list is accepted at some fuel exactly when each
      attribute is declaratively assignable to its option (C6, a
      refinement of C1 that no longer mentions fuel); in every library
      environment where [Date] has a required member that strings and
      [moment.Moment] lack, the date options reject both at every fuel
      (C12), and where [React.Component] has a required member that
      [React.ReactElement] lacks, the render hooks reject functions
      returning elements at every fuel (C13), both proved from the
      inversion lemma [TsSpec.iface_missing_inv]; and in every library
      environment the options given their own declared types are
      accepted (C20);
    - [DatetimeTerm]: every environment whose library typings declare no
      interface is ranked, so the props check answers once the fuel
      exceeds a computed bound, and its answer is the declarative verdict
      (C8);
    - [DatetimeJsx]: JSX attributes with a hyphen in their name are
      accepted whatever their value (C14), a spread is checked only on
      the options it names (C15), for every option an attribute hides the
      same name in a spread to its left and not in one to its right
      (C16), an undeclared attribute without a hyphen is an error
      whatever the others (C4), and without spreads the JSX check accepts
      exactly the attribute lists without a repeated name that the
      declarative relation allows (C7, the counterpart of C6), and in
      every library environment without interfaces it answers above a
      computed fuel, with the declarative verdict (C9, the counterpart of
      C8); a spread is accepted exactly when the declarative relation
      allows its declared properties (C27).
    Supporting results: fuel monotonicity of the checker
    ([TsCheck.assignable_mono], [literal_assignable_mono]), the
    characterisation of fresh literals against an all-optional interface
    ([TsCheck.literal_iface_true]), and of assignability to [Object] and to
    [string|any] ([assignable_Object], [assignable_string_any]); in
    [TsSpec], the checker decides the declarative relation:
    [assignable_sound] (a [Some true] answer is a derivation),
    [assignable_refutes] (a [Some false] answer excludes every
    derivation), [assignable_complete] (every derivation is found with
    enough fuel), and [assignable_refl] (reflexivity); in [TsTerm],
    [assignable_terminates] and [literal_assignable_terminates].

    ** Fuel

    The checker answers [None] when its fuel runs out, never [false], so a
    rejection proved here is a rejection of the compiler.  Fuel is one
    unfolding of the relation per level of nesting: a one-property literal
    against the props interface needs 2 levels for the literal and the
    interface, then the depth of the option's type (4 is enough for every
    declared type, [DatetimeFacts.props_members_refl]); the general
    theorems state the fuel they need ([union_depth] of the source type
    plus a constant) and hold for all larger fuel.  The theorems of
    [TsSpec] and [DatetimeSpec] quantify over the fuel instead: a verdict
    at some fuel, or some fuel that gives the verdict ([fuel_uniform_lt]
    and [fuel_uniform_in] take the largest of finitely many), and
    [TsTerm] gives the fuel that is always enough: one more than the sum
    of the two types' weights [tw E (S R) t], where [R] bounds the ranks
    of the interfaces; for the file's environment [R = 2] (the component
    interface above the props interface above the library types).

    ** Plan of the development

    Done: the type language, the checker and its fuel monotonicity, name
    resolution, the declaration file, the declarative relation with the
    checker's soundness and completeness, reflexivity, termination on
    ranked environments, the JSX element check, and the theorems C1-C27
    (numbered in order of importance).  Next:
    - termination of the JSX check with spreads (C9 covers attributes
      without spreads).

    ** What is not modelled

    - The widget (rendering, calendar navigation, date parsing, time
      constraints): it is not in the repository, and the declarations have
      no behaviour of their own; the comments' descriptions of it are used
      only to state what the types should accept.
    - The members of the library types are not taken from their typings,
      which are not in the repository: [lib_env] compares [Date],
      [React.Component] and the like by name and type arguments
      ([DOpaque]); C12 and C13 instead assume of the library environment
      only the one member that matters, and [member_env] instantiates
      them; the primitives' apparent members ([Number],
      [String]) are not modelled, which is exact here because none shares
      a name with a member of the file's interfaces.
    - Recursive interfaces: TypeScript compares them coinductively (it
      assumes a pair related while it compares it); the checker here has
      no such assumption and would run out of fuel on them, which is why
      [TsTerm] assumes a ranked environment.  The file declares none.
    - Excess-property checks against union targets, index signatures,
      generics of the file's own (it declares none), optional parameters
      and rest parameters (the file declares none). *)

From stdpp Require Import base list option strings.

(** * Three-valued answers of a bounded check

    The type checker of the development is a fuel-bounded recursion.  Its
    answers are [option bool]: [Some true] (the relation holds),
    [Some false] (it is refuted) and [None] (the fuel ran out before an
    answer was found).  Keeping [None] apart from [Some false] means that a
    rejection proved in this development is a real rejection, never an
    artefact of a small bound. *)

Declare Scope tsc_scope.
Delimit Scope tsc_scope with tsc.
Open Scope tsc_scope.

(** Conjunction and disjunction are parallel: a definite answer of
    either operand that decides the result is the result, even when the
    other operand is out of fuel.  The relations the checker computes
    have no effects, so the order of the operands does not matter. *)
Definition oand (a b : option bool) : option bool :=
  match a, b with
  | Some false, _ | _, Some false => Some false
  | Some true, Some true => Some true
  | _, _ => None
  end.

Definition oor (a b : option bool) : option bool :=
  match a, b with
  | Some true, _ | _, Some true => Some true
  | Some false, Some false => Some false
  | _, _ => None
  end.

Notation "a &&? b" := (oand a b) (at level 40, left associativity) : tsc_scope.
Notation "a ||? b" := (oor a b) (at level 50, left associativity) : tsc_scope.

Definition obool (b : bool) : option bool := Some b.

Fixpoint oall {A} (f : A -> option bool) (l : list A) : option bool :=
  match l with
  | [] => Some true
  | x :: l' => f x &&? oall f l'
  end.

Fixpoint oany {A} (f : A -> option bool) (l : list A) : option bool :=
  match l with
  | [] => Some false
  | x :: l' => f x ||? oany f l'
  end.

(** Pairwise conjunction over two lists of the same length; lists of
    different lengths are refuted. *)
Fixpoint oall2 {A B} (f : A -> B -> option bool) (l1 : list A) (l2 : list B)
    : option bool :=
  match l1, l2 with
  | [], [] => Some true
  | x :: l1', y :: l2' => f x y &&? oall2 f l1' l2'
  | _, _ => Some false
  end.

(** [a ⊑ b]: [b] is at least as defined as [a] and agrees with it. *)
Definition odef_le (a b : option bool) : Prop :=
  forall v, a = Some v -> b = Some v.
Notation "a ⊑ b" := (odef_le a b) (at level 70) : tsc_scope.

Create HintDb tsc discriminated.

(** * Lemmas on the combinators *)

Lemma oand_true a b : a &&? b = Some true <-> a = Some true /\ b = Some true.
Proof. destruct a as [[]|], b as [[]|]; simpl; intuition congruence. Qed.

Lemma oand_true_l b : Some true &&? b = b.
Proof. by destruct b as [[]|]. Qed.

Lemma oand_true_r a : a &&? Some true = a.
Proof. by destruct a as [[]|]. Qed.

Lemma oor_false_l b : Some false ||? b = b.
Proof. by destruct b as [[]|]. Qed.

Lemma oor_true a b : a ||? b = Some true <-> a = Some true \/ b = Some true.
Proof. destruct a as [[]|], b as [[]|]; simpl; intuition congruence. Qed.

Lemma oand_false a b : a &&? b = Some false <-> a = Some false \/ b = Some false.
Proof. destruct a as [[]|], b as [[]|]; simpl; intuition congruence. Qed.

Lemma oor_false a b : a ||? b = Some false <-> a = Some false /\ b = Some false.
Proof. destruct a as [[]|], b as [[]|]; simpl; intuition congruence. Qed.

Lemma oall_true {A} (f : A -> option bool) l :
  oall f l = Some true <-> Forall (fun x => f x = Some true) l.
Proof.
  induction l as [|x l IH]; simpl; [split; auto|].
  rewrite oand_true, IH, Forall_cons. tauto.
Qed.

Lemma oany_false {A} (f : A -> option bool) l :
  oany f l = Some false <-> Forall (fun x => f x = Some false) l.
Proof.
  induction l as [|x l IH]; simpl; [split; auto|].
  rewrite oor_false, IH, Forall_cons. tauto.
Qed.

Lemma oany_true {A} (f : A -> option bool) l :
  oany f l = Some true <-> exists x, x ∈ l /\ f x = Some true.
Proof.
  induction l as [|x l IH]; simpl.
  - split; [discriminate|]. intros (y & Hy & _). by apply elem_of_nil in Hy.
  - rewrite oor_true, IH. split.
    + intros [H|(y & Hy & Hfy)]; [exists x|exists y]; split; try done; by constructor.
    + intros (y & [->|Hy]%elem_of_cons & Hfy); [by left|right; eauto].
Qed.

(** A refuted conjunction has a refuted conjunct. *)
Lemma oall_false {A} (f : A -> option bool) l :
  oall f l = Some false <-> exists x, x ∈ l /\ f x = Some false.
Proof.
  induction l as [|x l IH]; simpl.
  - split; [discriminate|]. intros (y & Hy & _). by apply elem_of_nil in Hy.
  - rewrite oand_false, IH. split.
    + intros [H|(y & Hy & Hfy)]; [exists x|exists y]; split; try done; by constructor.
    + intros (y & [->|Hy]%elem_of_cons & Hfy); [by left|right; eauto].
Qed.

Lemma oall2_true {A B} (f : A -> B -> option bool) l1 l2 :
  oall2 f l1 l2 = Some true <-> Forall2 (fun x y => f x y = Some true) l1 l2.
Proof.
  revert l2; induction l1 as [|x l1 IH]; intros [|y l2]; simpl;
    try (split; [discriminate|inversion 1]).
  - split; auto.
  - rewrite oand_true, IH. split; [intros []; auto|inversion 1; auto].
Qed.

(** A refuted pairwise conjunction: the lengths differ, or one pair is
    refuted. *)
Lemma oall2_false {A B} (f : A -> B -> option bool) l1 l2 :
  oall2 f l1 l2 = Some false ->
  length l1 <> length l2 \/
  exists i x y, l1 !! i = Some x /\ l2 !! i = Some y /\ f x y = Some false.
Proof.
  revert l2; induction l1 as [|x l1 IH]; intros [|y l2]; simpl;
    try discriminate; try (left; done).
  rewrite oand_false. intros [H|H].
  - right. by exists 0, x, y.
  - destruct (IH l2 H) as [Hl|(i & x' & y' & H')]; [left; lia|].
    right. by exists (S i), x', y'.
Qed.

(** ** Definedness order: more fuel never changes a definite answer *)

Lemma odef_le_refl a : a ⊑ a.
Proof. by intros v. Qed.

Lemma odef_le_Some b a : Some b ⊑ a -> a = Some b.
Proof. intros H. by apply H. Qed.

Lemma oand_mono a a' b b' : a ⊑ a' -> b ⊑ b' -> a &&? b ⊑ a' &&? b'.
Proof.
  intros Ha Hb v. destruct a as [[]|] eqn:Ea, b as [[]|] eqn:Eb; simpl;
    try discriminate; intros <-;
    try rewrite (Ha _ eq_refl); try rewrite (Hb _ eq_refl); simpl;
    try reflexivity; by destruct a' as [[]|].
Qed.

Lemma oor_mono a a' b b' : a ⊑ a' -> b ⊑ b' -> a ||? b ⊑ a' ||? b'.
Proof.
  intros Ha Hb v. destruct a as [[]|] eqn:Ea, b as [[]|] eqn:Eb; simpl;
    try discriminate; intros <-;
    try rewrite (Ha _ eq_refl); try rewrite (Hb _ eq_refl); simpl;
    try reflexivity; by destruct a' as [[]|].
Qed.

Lemma oall_mono {A} (f g : A -> option bool) l :
  (forall x, x ∈ l -> f x ⊑ g x) -> oall f l ⊑ oall g l.
Proof.
  induction l as [|x l IH]; simpl; intros H; [apply odef_le_refl|].
  apply oand_mono; [apply H; left|apply IH; intros y Hy; apply H; by right].
Qed.

Lemma oany_mono {A} (f g : A -> option bool) l :
  (forall x, x ∈ l -> f x ⊑ g x) -> oany f l ⊑ oany g l.
Proof.
  induction l as [|x l IH]; simpl; intros H; [apply odef_le_refl|].
  apply oor_mono; [apply H; left|apply IH; intros y Hy; apply H; by right].
Qed.

Lemma oall2_mono {A B} (f g : A -> B -> option bool) l1 l2 :
  (forall x y, x ∈ l1 -> f x y ⊑ g x y) -> oall2 f l1 l2 ⊑ oall2 g l1 l2.
Proof.
  revert l2; induction l1 as [|x l1 IH]; intros [|y l2] H; simpl;
    try apply odef_le_refl.
  apply oand_mono; [apply H; left|apply IH; intros ?? Hx; apply H; by right].
Qed.

#[export] Hint Resolve odef_le_refl oand_mono oor_mono : tsc.

(** * Association lists keyed by strings

    Interface bodies and object literals are ordered lists of named
    entries: order and duplicates are part of the source text, so they are
    kept as association lists rather than maps. *)

Fixpoint assoc {A} (k : string) (l : list (string * A)) : option A :=
  match l with
  | [] => None
  | (k', v) :: l' => if String.eqb k k' then Some v else assoc k l'
  end.

Lemma assoc_Some {A} k (l : list (string * A)) v :
  assoc k l = Some v -> (k, v) ∈ l.
Proof.
  induction l as [|[k' v'] l IH]; simpl; [discriminate|].
  destruct (String.eqb_spec k k') as [->|_].
  - intros [= ->]. left.
  - intros H. right. by apply IH.
Qed.

Lemma assoc_None {A} k (l : list (string * A)) :
  assoc k l = None <-> k ∉ l.*1.
Proof.
  induction l as [|[k' v'] l IH]; simpl.
  - split; [intros _; apply not_elem_of_nil|done].
  - rewrite not_elem_of_cons. destruct (String.eqb_spec k k') as [->|Hne].
    + split; [discriminate|tauto].
    + rewrite IH. tauto.
Qed.

Lemma assoc_elem_of {A} k (l : list (string * A)) :
  k ∈ l.*1 -> exists v, assoc k l = Some v.
Proof.
  intros Hk. destruct (assoc k l) as [v|] eqn:E; [eauto|].
  apply assoc_None in E. contradiction.
Qed.

(** Membership of a key, as a boolean the checker can compute with. *)
Definition has_key {A} (k : string) (l : list (string * A)) : bool :=
  bool_decide (k ∈ l.*1).

(** With distinct keys, [assoc] finds every entry. *)
Lemma assoc_NoDup {A} k (v : A) (l : list (string * A)) :
  NoDup l.*1 -> (k, v) ∈ l -> assoc k l = Some v.
Proof.
  induction l as [|[k' v'] l IH]; simpl; [by intros _ ?%elem_of_nil|].
  rewrite NoDup_cons. intros [Hk' Hnd] [[= -> ->]|Hin]%elem_of_cons.
  - by rewrite String.eqb_refl.
  - destruct (String.eqb_spec k k') as [->|_]; [|by apply IH].
    exfalso. apply Hk'. by apply (list_elem_of_fmap_2 fst _ (k', v)).
Qed.

Lemma has_key_spec {A} k (l : list (string * A)) : has_key k l = true <-> k ∈ l.*1.
Proof. unfold has_key. by rewrite bool_decide_eq_true. Qed.

(** Filtering out what satisfies [p] keeps, of a list whose elements
    satisfy [p] or equal [m], only the copies of [m]. *)
Lemma filter_only {A} `{EqDecision A} (p : A -> bool) (m : A) (l : list A) :
  Forall (fun x => x = m \/ p x = true) l ->
  filter (fun x => p x = false) l = filter (fun x => p x = false) (filter (fun x => x = m) l).
Proof.
  induction 1 as [|x l Hx _ IH]; [done|].
  rewrite (filter_cons (fun x => x = m)).
  destruct (decide (x = m)) as [->|Hne].
  - rewrite !filter_cons. by rewrite IH.
  - rewrite filter_cons, decide_False; [done|].
    destruct Hx as [->|Hx]; [done|]. congruence.
Qed.

(** ** Common fuel

    Finitely many statements, each of which holds from some fuel on and
    keeps holding with more, hold together from a common fuel on. *)
Lemma fuel_uniform_lt (P : nat -> nat -> Prop) n :
  (forall k k' i, k <= k' -> P k i -> P k' i) ->
  (forall i, i < n -> exists k, P k i) -> exists k, forall i, i < n -> P k i.
Proof.
  intros Hm H. induction n as [|n IH]; [exists 0; lia|].
  destruct IH as [k1 Hk1]; [intros i ?; apply H; lia|].
  destruct (H n) as [k2 Hk2]; [lia|].
  exists (k1 `max` k2). intros i Hi. destruct (decide (i = n)) as [->|].
  - apply (Hm k2); [lia|done].
  - apply (Hm k1); [lia|]. apply Hk1. lia.
Qed.

Lemma fuel_uniform_in {A} (P : nat -> A -> Prop) (l : list A) :
  (forall k k' x, k <= k' -> P k x -> P k' x) ->
  (forall x, x ∈ l -> exists k, P k x) -> exists k, forall x, x ∈ l -> P k x.
Proof.
  intros Hm H. induction l as [|x l IH]; [exists 0; by intros ? ?%elem_of_nil|].
  destruct IH as [k1 Hk1]; [intros y Hy; apply H, elem_of_cons; by right|].
  destruct (H x) as [k2 Hk2]; [apply elem_of_cons; by left|].
  exists (k1 `max` k2). intros y [->|Hy]%elem_of_cons.
  - apply (Hm k2); [lia|done].
  - apply (Hm k1); [lia|]. by apply Hk1.
Qed.

(** A list zipped with itself pairs each element with itself. *)
Lemma elem_of_zip_diag {A} (l : list A) x y : (x, y) ∈ zip l l -> x = y /\ x ∈ l.
Proof.
  induction l as [|z l IH]; simpl; [by intros ?%elem_of_nil|].
  intros [[= -> ->]|H]%elem_of_cons; [split; [done|by left]|].
  destruct (IH H) as [-> Hy]. split; [done|by right].
Qed.

(** ** Definedness: the combinators answer when their operands do *)

Lemma oand_defined a b : a <> None -> b <> None -> a &&? b <> None.
Proof. by destruct a as [[]|], b as [[]|]. Qed.

Lemma oor_defined a b : a <> None -> b <> None -> a ||? b <> None.
Proof. by destruct a as [[]|], b as [[]|]. Qed.

Lemma oall_defined {A} (f : A -> option bool) l :
  (forall x, x ∈ l -> f x <> None) -> oall f l <> None.
Proof.
  induction l as [|x l IH]; simpl; intros H; [done|].
  apply oand_defined; [apply H, elem_of_cons; by left|].
  apply IH. intros y Hy. apply H, elem_of_cons. by right.
Qed.

Lemma oany_defined {A} (f : A -> option bool) l :
  (forall x, x ∈ l -> f x <> None) -> oany f l <> None.
Proof.
  induction l as [|x l IH]; simpl; intros H; [done|].
  apply oor_defined; [apply H, elem_of_cons; by left|].
  apply IH. intros y Hy. apply H, elem_of_cons. by right.
Qed.

Lemma oall2_defined {A B} (f : A -> B -> option bool) l1 l2 :
  (forall x y, x ∈ l1 -> y ∈ l2 -> f x y <> None) -> oall2 f l1 l2 <> None.
Proof.
  revert l2. induction l1 as [|x l1 IH]; intros [|y l2] H; simpl; try done.
  apply oand_defined; [apply H; apply elem_of_cons; by left|].
  apply IH. intros x' y' Hx Hy. apply H; apply elem_of_cons; by right.
Qed.

Lemma elem_of_zip {A B} (l1 : list A) (l2 : list B) x y :
  (x, y) ∈ zip l1 l2 -> x ∈ l1 /\ y ∈ l2.
Proof.
  revert l2. induction l1 as [|x1 l1 IH]; intros [|y2 l2]; simpl; try by intros ?%elem_of_nil.
  intros [[= -> ->]|H]%elem_of_cons; [split; by left|].
  destruct (IH l2 H). split; by right.
Qed.

Lemma sum_list_with_elem_of {A} (f : A -> nat) l x : x ∈ l -> f x <= sum_list_with f l.
Proof.
  induction l as [|y l IH]; simpl; [by intros ?%elem_of_nil|].
  intros [->|Hx]%elem_of_cons; [lia|]. specialize (IH Hx). lia.
Qed.

Lemma sum_list_with_ext {A} (f g : A -> nat) l :
  (forall x, x ∈ l -> f x = g x) -> sum_list_with f l = sum_list_with g l.
Proof.
  induction l as [|y l IH]; simpl; intros H; [done|].
  rewrite (H y) by (apply elem_of_cons; by left).
  rewrite IH; [done|]. intros x Hx. apply H, elem_of_cons. by right.
Qed.

Lemma oand_assoc a b c : (a &&? b) &&? c = a &&? (b &&? c).
Proof. by destruct a as [[]|], b as [[]|], c as [[]|]. Qed.

Lemma oand_false_r a : a &&? Some false = Some false.
Proof. by destruct a as [[]|]. Qed.
