(* ===== verification/TsType.v ===== *)
(** * The TypeScript type fragment of the declaration file

    The abstract syntax of the types that [src/react-datetime.d.ts] writes
    (primitive types, string-literal types, unions, function types, object
    types with optional members, references to named types with type
    arguments), the declarations a name can stand for, and the environment
    of named types.  No type of this file is specific to react-datetime: it
    is the language the declaration file is written in. *)

From stdpp Require Import base list option strings gmap.
From S2P Require Import Prelude.

(** ** Types

    [TFun] keeps the parameter names of a function type, as the source
    writes them ([(nextView: string, currentView: string, ...) => string]);
    [TObj] is an object type literal, its members in source order, each
    with its optional flag ([name?: T]).  [TRef n args] is a reference to a
    named type [n] (possibly qualified, [React.Component]) applied to
    [args] ([React.Component<any, any>]). *)

#[warnings="-register-all"]
Inductive ty : Type :=
| TAny
| TVoid
| TUndefined
| TNull
| TBoolean
| TNumber
| TString
| TStrLit (s : string)
| TUnion (a b : ty)
| TFun (params : list (string * ty)) (ret : ty)
| TObj (members : list (string * (bool * ty)))
| TRef (name : string) (args : list ty).

(** A member of an object type or interface: its name, whether it is
    optional ([?]) and its type. *)
Abbreviation member := (string * (bool * ty))%type.

Definition opt (n : string) (t : ty) : member := (n, (true, t)).
Definition req (n : string) (t : ty) : member := (n, (false, t)).

Definition mem_name (m : member) : string := m.1.
Definition mem_optional (m : member) : bool := m.2.1.
Definition mem_ty (m : member) : ty := m.2.2.

(** An induction principle that sees the types nested in parameter,
    member and argument lists. *)
Section ty_ind_nested.
Variable P : ty -> Prop.
Hypothesis HAny : P TAny.
Hypothesis HVoid : P TVoid.
Hypothesis HUndefined : P TUndefined.
Hypothesis HNull : P TNull.
Hypothesis HBoolean : P TBoolean.
Hypothesis HNumber : P TNumber.
Hypothesis HString : P TString.
Hypothesis HStrLit : forall s, P (TStrLit s).
Hypothesis HUnion : forall a b, P a -> P b -> P (TUnion a b).
Hypothesis HFun : forall ps r,
  Forall (fun p => P p.2) ps -> P r -> P (TFun ps r).
Hypothesis HObj : forall ms, Forall (fun m => P (mem_ty m)) ms -> P (TObj ms).
Hypothesis HRef : forall n args, Forall P args -> P (TRef n args).

Fixpoint ty_ind_nested (t : ty) : P t :=
  match t with
  | TAny => HAny
  | TVoid => HVoid
  | TUndefined => HUndefined
  | TNull => HNull
  | TBoolean => HBoolean
  | TNumber => HNumber
  | TString => HString
  | TStrLit s => HStrLit s
  | TUnion a b => HUnion a b (ty_ind_nested a) (ty_ind_nested b)
  | TFun ps r =>
      HFun ps r
        ((fix go (l : list (string * ty)) : Forall (fun p => P p.2) l :=
            match l with
            | [] => Forall_nil_2 _
            | p :: l' => Forall_cons_2 _ _ _ (ty_ind_nested p.2) (go l')
            end) ps)
        (ty_ind_nested r)
  | TObj ms =>
      HObj ms
        ((fix go (l : list member) : Forall (fun m => P (mem_ty m)) l :=
            match l with
            | [] => Forall_nil_2 _
            | m :: l' => Forall_cons_2 _ _ _ (ty_ind_nested (mem_ty m)) (go l')
            end) ms)
  | TRef n args =>
      HRef n args
        ((fix go (l : list ty) : Forall P l :=
            match l with
            | [] => Forall_nil_2 _
            | a :: l' => Forall_cons_2 _ _ _ (ty_ind_nested a) (go l')
            end) args)
  end.
End ty_ind_nested.

(** ** References of a type

    Every named type a type mentions, with the number of type arguments it
    is applied to, in source order. *)
Fixpoint ty_refs (t : ty) : list (string * nat) :=
  match t with
  | TUnion a b => ty_refs a ++ ty_refs b
  | TFun ps r => flat_map (fun p => ty_refs p.2) ps ++ ty_refs r
  | TObj ms => flat_map (fun m => ty_refs (mem_ty m)) ms
  | TRef n args => (n, length args) :: flat_map ty_refs args
  | _ => []
  end.

(** Rename every reference of a type: name resolution is such a renaming. *)
Fixpoint ty_rename (f : string -> string) (t : ty) : ty :=
  match t with
  | TUnion a b => TUnion (ty_rename f a) (ty_rename f b)
  | TFun ps r => TFun (map (fun p => (p.1, ty_rename f p.2)) ps) (ty_rename f r)
  | TObj ms => TObj (map (fun m => (m.1, (m.2.1, ty_rename f m.2.2))) ms)
  | TRef n args => TRef (f n) (map (ty_rename f) args)
  | t => t
  end.

Lemma ty_refs_rename f t :
  ty_refs (ty_rename f t) = (fun r => (f r.1, r.2)) <$> ty_refs t.
Proof.
  induction t using ty_ind_nested; simpl; try reflexivity.
  - by rewrite fmap_app, IHt1, IHt2.
  - rewrite fmap_app, IHt. f_equal. induction H as [|p ps Hp _ IH]; [done|].
    simpl. by rewrite fmap_app, Hp, IH.
  - induction H as [|m ms Hm _ IH]; [done|]. simpl. by rewrite fmap_app, <- Hm, IH.
  - f_equal; [by rewrite length_map|].
    induction H as [|a args Ha _ IH]; [done|]. simpl. by rewrite fmap_app, Ha, IH.
Qed.

(** ** Declarations and the environment of named types

    A name stands for one of:
    - [DIface heritage body]: an interface, [interface I extends H1, H2 {
      body }]; the development's interfaces take no type parameters, as
      the declaration file's do not;
    - [DOpaque k]: a type of a library the file only refers to ([Date],
      [React.Component<P, S>], [React.ComponentClass<P>]), with [k] type
      parameters; its members are not part of the development, so it is
      compared by name and type arguments;
    - [DObject]: the global interface [Object], the apparent type every
      value but [void] conforms to;
    - [DFunction]: the global interface [Function], which every function
      type conforms to. *)

Inductive decl : Type :=
| DIface (heritage : list ty) (body : list member)
| DOpaque (arity : nat)
| DObject
| DFunction.

Abbreviation tenv := (gmap string decl).

(** The number of type arguments a reference to a declaration takes. *)
Definition decl_arity (d : decl) : nat :=
  match d with
  | DOpaque k => k
  | _ => 0
  end.

(** A reference [n<args>] is resolved in [E] when [n] is declared there
    with as many type parameters as [args] has. *)
Definition ref_resolved (E : tenv) (r : string * nat) : bool :=
  match E !! r.1 with
  | Some d => Nat.eqb (decl_arity d) r.2
  | None => false
  end.

(** The references of [t] that [E] does not resolve: the compiler's
    "Cannot find name" and "Generic type requires k type arguments" errors. *)
Definition unresolved (E : tenv) (t : ty) : list (string * nat) :=
  filter (fun r => ref_resolved E r = false) (ty_refs t).

(** ** Decidable equality

    A boolean equality with an inner loop per nested list, and the
    [EqDecision] instance built on it, so that [decide] and [bool_decide]
    compute on types. *)
Fixpoint ty_eqb (s t : ty) : bool :=
  match s, t with
  | TAny, TAny | TVoid, TVoid | TUndefined, TUndefined | TNull, TNull
  | TBoolean, TBoolean | TNumber, TNumber | TString, TString => true
  | TStrLit a, TStrLit b => String.eqb a b
  | TUnion a b, TUnion c d => ty_eqb a c && ty_eqb b d
  | TFun ps r, TFun qs r' =>
      (fix go (ps qs : list (string * ty)) : bool :=
         match ps, qs with
         | [], [] => true
         | p :: ps', q :: qs' => String.eqb p.1 q.1 && ty_eqb p.2 q.2 && go ps' qs'
         | _, _ => false
         end) ps qs && ty_eqb r r'
  | TObj ms, TObj ns =>
      (fix go (ms ns : list member) : bool :=
         match ms, ns with
         | [], [] => true
         | m :: ms', k :: ns' =>
             String.eqb m.1 k.1 && Bool.eqb m.2.1 k.2.1 && ty_eqb m.2.2 k.2.2 && go ms' ns'
         | _, _ => false
         end) ms ns
  | TRef n args, TRef n' args' =>
      String.eqb n n' &&
      (fix go (xs ys : list ty) : bool :=
         match xs, ys with
         | [], [] => true
         | x :: xs', y :: ys' => ty_eqb x y && go xs' ys'
         | _, _ => false
         end) args args'
  | _, _ => false
  end.

Lemma ty_eqb_eq s t : ty_eqb s t = true <-> s = t.
Proof.
  revert t.
  induction s as [| | | | | | | a | a b IHa IHb | ps r Hps IHr | ms Hms | n args Hargs]
    using ty_ind_nested; intros []; simpl; try (split; congruence).
  - rewrite String.eqb_eq. split; congruence.
  - rewrite andb_true_iff, IHa, IHb. split; [intros [-> ->]|intros [=]]; auto.
  - rename params into qs, ret into r'. rewrite andb_true_iff, IHr.
    enough (Hl : (fix go (ps qs : list (string * ty)) : bool :=
         match ps, qs with
         | [], [] => true
         | p :: ps', q :: qs' => String.eqb p.1 q.1 && ty_eqb p.2 q.2 && go ps' qs'
         | _, _ => false
         end) ps qs = true <-> ps = qs) by (rewrite Hl; split; [intros [-> ->]|intros [=]]; auto).
    revert qs. induction Hps as [|[k t] ps Ht _ IH]; intros [|[k' t'] qs]; simpl in *;
      try (split; congruence).
    rewrite !andb_true_iff, String.eqb_eq, Ht, IH. split; [intros [[-> ->] ->]|intros [=]]; auto.
  - rename members into ns.
    revert ns. induction Hms as [|[k [o t]] ms Ht _ IH]; intros [|[k' [o' t']] ns];
      unfold mem_ty in *; simpl in *; try (split; congruence).
    rewrite !andb_true_iff, String.eqb_eq, Bool.eqb_true_iff, Ht.
    specialize (IH ns). rewrite IH. split; [intros [[[-> ->] ->] [=->]]|intros [= -> -> -> ->]]; auto.
  - rename name into n', args0 into args'. rewrite andb_true_iff, String.eqb_eq.
    enough (Hl : (fix go (xs ys : list ty) : bool :=
         match xs, ys with
         | [], [] => true
         | x :: xs', y :: ys' => ty_eqb x y && go xs' ys'
         | _, _ => false
         end) args args' = true <-> args = args')
      by (rewrite Hl; split; [intros [-> ->]|intros [=]]; auto).
    revert args'. induction Hargs as [|x args Hx _ IH]; intros [|y args']; simpl;
      try (split; congruence).
    rewrite andb_true_iff, Hx, IH. split; [intros [-> ->]|intros [=]]; auto.
Qed.

#[export] Instance ty_eq_dec : EqDecision ty.
Proof.
  intros s t. destruct (ty_eqb s t) eqn:E.
  - left. by apply ty_eqb_eq.
  - right. intros Heq. apply ty_eqb_eq in Heq. congruence.
Defined.
