(* ===== verification/TsCheck.v ===== *)
(** * Assignability in the TypeScript 1.8 fragment

    The relation the compiler checks when a value of type [s] is used where
    a [t] is expected (an argument, a property of an object literal, a
    JSX attribute), for the types of [TsType], as TypeScript 1.8 (the
    version the declaration file targets, [src/react-datetime.d.ts:6])
    defines it: no [strictNullChecks] (the option does not exist before 2.0),
    so [null] and [undefined] are assignable everywhere; [any] and the error
    type of an unresolved name are assignable both ways; parameters are
    compared bivariantly; a [void] return accepts any return.

    The checker is a step functional iterated with fuel: [assign_step] is
    one unfolding, [assignable n] its [n]-th iterate.  Out of fuel it
    answers [None], never [false], and theorem [assignable_mono] shows that
    more fuel never changes a definite answer. *)

From stdpp Require Import base list option strings gmap.
From S2P Require Import Prelude TsType.

(** The properties a type is known to have: [Known ms] lists them (own
    members first, then inherited ones); [Unknown] is a type whose members
    the development does not model (a library type). *)
Inductive known : Type :=
| Known (ms : list member)
| Unknown.

Definition kcombine (a b : option known) : option known :=
  match a, b with
  | Some (Known l), Some (Known l') => Some (Known (l ++ l'))
  | None, _ | _, None => None
  | _, _ => Some Unknown
  end.

Definition oknown_le (a b : option known) : Prop := forall k, a = Some k -> b = Some k.

Section Check.
Variable E : tenv.

Definition is_any (t : ty) : bool := match t with TAny => true | _ => false end.
Definition is_void (t : ty) : bool := match t with TVoid => true | _ => false end.
Definition is_nullish (t : ty) : bool :=
  match t with TNull | TUndefined => true | _ => false end.

(** A reference to a name [E] does not declare: the compiler reports it
    and goes on with the error type, which behaves as [any]. *)
Definition is_error_ref (t : ty) : bool :=
  match t with
  | TRef n _ => match E !! n with None => true | Some _ => false end
  | _ => false
  end.

Definition heritage_of (s : ty) : list ty :=
  match s with
  | TRef m _ => match E !! m with Some (DIface h _) => h | _ => [] end
  | _ => []
  end.

Definition is_function (s : ty) : bool :=
  match s with
  | TFun _ _ => true
  | TRef m _ => match E !! m with Some DFunction => true | _ => false end
  | _ => false
  end.

(** ** One unfolding of the property table *)
Definition props_step (props : ty -> option known) (s : ty) : option known :=
  match s with
  | TObj ms => Some (Known ms)
  | TBoolean | TNumber | TString | TStrLit _ | TFun _ _ => Some (Known [])
  | TRef m _ =>
      match E !! m with
      | Some (DIface h body) => foldl kcombine (Some (Known body)) (props <$> h)
      | Some DObject | Some DFunction => Some (Known [])
      | _ => Some Unknown
      end
  | _ => Some Unknown
  end.

(** ** One unfolding of assignability *)

(** [s]'s known properties satisfy the members [body] of a target:
    every required member is present, no optional source property meets
    a required target one, and each present property is assignable. *)
Definition conforms (rec : ty -> ty -> option bool) (sp body : list member)
    : option bool :=
  oall (fun m =>
    match assoc (mem_name m) sp with
    | Some (o, st) =>
        if o && negb (mem_optional m) then Some false else rec st (mem_ty m)
    | None => Some (mem_optional m)
    end) body.

Definition structural (rec : ty -> ty -> option bool)
    (props : ty -> option known) (s : ty) (body : list member) : option bool :=
  match props s with
  | Some (Known sp) => conforms rec sp body
  | Some Unknown => Some false
  | None => None
  end.

(** Function types: the source takes no more parameters than the target
    passes, parameters are related in either direction, and the return
    is covariant unless the target returns [void]. *)
Definition fun_step (rec : ty -> ty -> option bool)
    (ps : list (string * ty)) (r : ty) (qs : list (string * ty)) (r' : ty)
    : option bool :=
  obool (length ps <=? length qs) &&?
  oall (fun pq => rec pq.1 pq.2 ||? rec pq.2 pq.1) (zip ps.*2 qs.*2) &&?
  (if is_void r' then Some true else rec r r').

(** A source interface reaches a nominal target through what it extends. *)
Definition via_heritage (rec : ty -> ty -> option bool) (s t : ty) : option bool :=
  oany (fun e => rec e t) (heritage_of s).

Definition same_ref (rec : ty -> ty -> option bool) (s : ty) (n : string)
    (args : list ty) : option bool :=
  match s with
  | TRef m args' => if String.eqb m n then oall2 rec args' args else Some false
  | _ => Some false
  end.

Definition ref_step (rec : ty -> ty -> option bool) (props : ty -> option known)
    (s : ty) (n : string) (args : list ty) : option bool :=
  match E !! n with
  | Some DObject => obool (negb (is_void s))
  | Some DFunction => obool (is_function s) ||? via_heritage rec s (TRef n args)
  | Some (DOpaque _) => same_ref rec s n args ||? via_heritage rec s (TRef n args)
  | Some (DIface h body) =>
      match s with
      | TRef m _ => if String.eqb m n then Some true
                    else oall (rec s) h &&? structural rec props s body
      | _ => oall (rec s) h &&? structural rec props s body
      end
  | None => Some true
  end.

Definition assign_step (rec : ty -> ty -> option bool)
    (props : ty -> option known) (s t : ty) : option bool :=
  if is_any s || is_any t || is_nullish s || is_error_ref s || is_error_ref t
  then Some true
  else
    match s, t with
    | TUnion a b, _ => rec a t &&? rec b t
    | _, TUnion a b => rec s a ||? rec s b
    | _, TVoid => obool (is_void s)
    | TBoolean, TBoolean | TNumber, TNumber | TString, TString => Some true
    | TStrLit _, TString => Some true
    | TStrLit x, TStrLit y => obool (String.eqb x y)
    | TFun ps r, TFun qs r' => fun_step rec ps r qs r'
    | _, TObj ms => structural rec props s ms
    | _, TRef n args => ref_step rec props s n args
    | _, _ => Some false
    end.

(** ** The iterates *)
Fixpoint props_of (fuel : nat) (s : ty) : option known :=
  match fuel with
  | O => None
  | S f => props_step (props_of f) s
  end.

Fixpoint assignable (fuel : nat) (s t : ty) : option bool :=
  match fuel with
  | O => None
  | S f => assign_step (assignable f) (props_of f) s t
  end.

(** ** Fresh object literals

    An object literal written at the use site ([{ value: d, utc: true }],
    or the attributes of a JSX element) is checked for excess properties
    before assignability: each of its properties must be known to the
    target, unless the target has no properties at all or its
    properties are not modelled. *)
Definition literal_ty (lit : list (string * ty)) : ty :=
  TObj ((fun p => (p.1, (false, p.2))) <$> lit).

Definition excess_ok (lit : list (string * ty)) (k : known) : bool :=
  match k with
  | Known [] | Unknown => true
  | Known tp => forallb (fun p => has_key p.1 tp) lit
  end.

Definition literal_assignable (fuel : nat) (lit : list (string * ty)) (t : ty)
    : option bool :=
  match props_of fuel t with
  | None => None
  | Some k => if excess_ok lit k then assignable fuel (literal_ty lit) t
              else Some false
  end.
End Check.

(** ** More fuel never changes a definite answer *)

Section Mono.
Variable E : tenv.

Lemma kcombine_mono a a' b b' :
  oknown_le a a' -> oknown_le b b' -> oknown_le (kcombine a b) (kcombine a' b').
Proof.
  intros Ha Hb k. destruct a as [[]|], b as [[]|]; simpl; try discriminate;
    rewrite (Ha _ eq_refl), (Hb _ eq_refl); done.
Qed.

Lemma foldl_kcombine_mono (l l' : list (option known)) a a' :
  oknown_le a a' -> Forall2 oknown_le l l' ->
  oknown_le (foldl kcombine a l) (foldl kcombine a' l').
Proof.
  intros Ha Hl. revert a a' Ha.
  induction Hl as [|x x' l l' Hx _ IH]; intros a a' Ha; simpl; [done|].
  by apply IH, kcombine_mono.
Qed.

Lemma props_step_mono props props' s :
  (forall s, oknown_le (props s) (props' s)) ->
  oknown_le (props_step E props s) (props_step E props' s).
Proof.
  intros H. destruct s; simpl; try (intros ?; done).
  destruct (E !! name) as [[h body| | |]|]; try (intros ?; done).
  apply foldl_kcombine_mono; [intros ?; done|].
  apply Forall2_fmap, Forall_Forall2_diag, Forall_forall. intros ??. apply H.
Qed.

Lemma props_of_mono n m s : n <= m -> oknown_le (props_of E n s) (props_of E m s).
Proof.
  revert m s. induction n as [|n IH]; intros [|m] s Hle k; simpl; try discriminate.
  - lia.
  - apply props_step_mono. intros s'. apply IH. lia.
Qed.

Section StepMono.
Variables (rec rec' : ty -> ty -> option bool) (props props' : ty -> option known).
Hypothesis Hrec : forall s t, rec s t ⊑ rec' s t.
Hypothesis Hprops : forall s, oknown_le (props s) (props' s).

Lemma conforms_mono sp body : conforms rec sp body ⊑ conforms rec' sp body.
Proof.
  apply oall_mono. intros m _.
  destruct (assoc (mem_name m) sp) as [[o st]|]; [|apply odef_le_refl].
  destruct (o && negb (mem_optional m)); [apply odef_le_refl|apply Hrec].
Qed.

Lemma structural_mono s body :
  structural rec props s body ⊑ structural rec' props' s body.
Proof.
  unfold structural. intros v. destruct (props s) as [k|] eqn:Hk; [|discriminate].
  rewrite (Hprops s k Hk). destruct k; [apply conforms_mono|done].
Qed.

Lemma fun_step_mono ps r qs r' : fun_step rec ps r qs r' ⊑ fun_step rec' ps r qs r'.
Proof.
  unfold fun_step. repeat apply oand_mono; try apply odef_le_refl.
  - apply oall_mono. intros ??. by apply oor_mono.
  - destruct (is_void r'); [apply odef_le_refl|apply Hrec].
Qed.

Lemma ref_step_mono s n args :
  ref_step E rec props s n args ⊑ ref_step E rec' props' s n args.
Proof.
  assert (Hh : forall t, via_heritage E rec s t ⊑ via_heritage E rec' s t)
    by (intros t; apply oany_mono; intros ??; apply Hrec).
  assert (Hb : forall h body, oall (rec s) h &&? structural rec props s body
               ⊑ oall (rec' s) h &&? structural rec' props' s body)
    by (intros h body; apply oand_mono;
        [apply oall_mono; intros ??; apply Hrec|apply structural_mono]).
  unfold ref_step. destruct (E !! n) as [[h body| | |]|]; try apply odef_le_refl.
  - destruct s; try apply Hb. destruct (String.eqb name n); [apply odef_le_refl|apply Hb].
  - apply oor_mono; [|apply Hh]. unfold same_ref. destruct s; try apply odef_le_refl.
    destruct (String.eqb name n); [|apply odef_le_refl].
    apply oall2_mono. intros ???. apply Hrec.
  - apply oor_mono; [apply odef_le_refl|apply Hh].
Qed.

Lemma assign_step_mono s t :
  assign_step E rec props s t ⊑ assign_step E rec' props' s t.
Proof.
  unfold assign_step.
  destruct (_ || _); [apply odef_le_refl|].
  destruct s, t;
    first [ apply fun_step_mono | apply structural_mono | apply ref_step_mono
          | apply oand_mono; apply Hrec | apply oor_mono; apply Hrec
          | apply odef_le_refl ].
Qed.
End StepMono.

Theorem assignable_mono n m s t : n <= m -> assignable E n s t ⊑ assignable E m s t.
Proof.
  revert m s t. induction n as [|n IH]; intros [|m] s t Hle v; simpl; try discriminate.
  - lia.
  - apply assign_step_mono; intros; [apply IH|apply props_of_mono]; lia.
Qed.

Lemma literal_assignable_mono n m lit t :
  n <= m -> literal_assignable E n lit t ⊑ literal_assignable E m lit t.
Proof.
  intros Hle v. unfold literal_assignable.
  destruct (props_of E n t) as [k|] eqn:Hk; [|discriminate].
  rewrite (props_of_mono n m t Hle k Hk).
  destruct (excess_ok lit k); [by apply assignable_mono|done].
Qed.
End Mono.

(** A source none of whose properties the target declares conforms to a
    target whose members are all optional: the "weak type" rule of
    TypeScript before 2.4. *)
Lemma conforms_disjoint rec (sp body : list member) :
  Forall (fun m => mem_optional m = true) body ->
  Forall (fun k => k ∉ body.*1) sp.*1 ->
  conforms rec sp body = Some true.
Proof.
  intros Hopt Hdis. rewrite Forall_forall in Hopt. rewrite Forall_forall in Hdis.
  apply oall_true, Forall_forall. intros m Hm.
  destruct (assoc (mem_name m) sp) as [[o st]|] eqn:Ha.
  - exfalso. apply assoc_Some in Ha.
    apply (Hdis (mem_name m)); [by apply (list_elem_of_fmap_2 fst _ (mem_name m, (o, st)))|].
    by apply list_elem_of_fmap_2.
  - by rewrite (Hopt m Hm).
Qed.

(** ** Fresh literals against an interface whose members are all optional

    The shape of the props interfaces of React typings: a flat interface,
    no heritage, every member optional.  For such a target the checker's
    verdict on a fresh literal with distinct property names is: accepted
    exactly when every property is a member of the interface and its type
    is assignable to the member's. *)

Section IfaceLiteral.
Variables (E : tenv) (n : string) (body : list member).
Hypothesis Hn : E !! n = Some (DIface [] body).
Hypothesis Hopt : Forall (fun m => mem_optional m = true) body.
Hypothesis Hnd : NoDup body.*1.
Hypothesis Hne : body <> [].

Lemma props_of_iface f : props_of E (S f) (TRef n []) = Some (Known body).
Proof. simpl. by rewrite Hn. Qed.

Lemma excess_ok_iface lit :
  excess_ok lit (Known body) = true <-> Forall (fun p => p.1 ∈ body.*1) lit.
Proof.
  clear Hn Hopt Hnd.
  unfold excess_ok. destruct body as [|m body'] eqn:Hb; [done|]. rewrite <- Hb.
  rewrite forallb_forall, Forall_forall.
  split; intros H p Hp; apply has_key_spec; apply H; by apply list_elem_of_In.
Qed.

(** A property the interface does not declare is an excess property. *)
Lemma literal_iface_excess f lit p :
  p ∈ lit -> p.1 ∉ body.*1 -> literal_assignable E (S f) lit (TRef n []) = Some false.
Proof.
  intros Hp Hnot. unfold literal_assignable. rewrite props_of_iface.
  destruct (excess_ok lit (Known body)) eqn:Hex; [|done].
  apply excess_ok_iface in Hex. rewrite Forall_forall in Hex.
  exfalso. by apply Hnot, Hex.
Qed.

Lemma assoc_literal k lit :
  assoc k ((fun p : string * ty => (p.1, (false, p.2))) <$> lit)
  = (fun t => (false, t)) <$> assoc k lit.
Proof.
  induction lit as [|[k' t] lit IH]; simpl; [done|].
  by destruct (String.eqb k k').
Qed.

(** The unfolding of the check down to the members' checks. *)
Lemma literal_iface_unfold f lit :
  literal_assignable E (S (S f)) lit (TRef n []) =
  if excess_ok lit (Known body)
  then conforms (assignable E (S f))
         ((fun p : string * ty => (p.1, (false, p.2))) <$> lit) body
  else Some false.
Proof.
  unfold literal_assignable. rewrite props_of_iface.
  destruct (excess_ok lit (Known body)); [|done].
  change (assign_step E (assignable E (S f)) (props_of E (S f)) (literal_ty lit) (TRef n [])
          = conforms (assignable E (S f))
              ((fun p : string * ty => (p.1, (false, p.2))) <$> lit) body).
  unfold assign_step, literal_ty. cbn [is_any is_nullish is_error_ref orb]. rewrite Hn.
  unfold ref_step. rewrite Hn. apply oand_true_l.
Qed.

Lemma conforms_iface_true rec lit :
  conforms rec ((fun p : string * ty => (p.1, (false, p.2))) <$> lit) body = Some true
  <-> Forall (fun m => forall t, assoc (mem_name m) lit = Some t ->
                                  rec t (mem_ty m) = Some true) body.
Proof.
  unfold conforms. rewrite oall_true, !Forall_forall.
  split; intros H m Hm; specialize (H m Hm); revert H;
    rewrite assoc_literal; destruct (assoc (mem_name m) lit) as [t|]; simpl.
  - intros H ? [= <-]. done.
  - done.
  - intros H. by apply H.
  - intros _. rewrite Forall_forall in Hopt. by rewrite (Hopt m Hm).
Qed.

(** The verdict, for a literal with distinct property names. *)
Lemma literal_iface_true f lit :
  NoDup lit.*1 ->
  literal_assignable E (S (S f)) lit (TRef n []) = Some true <->
  Forall (fun p => exists t, assoc p.1 body = Some (true, t) /\
                             assignable E (S f) p.2 t = Some true) lit.
Proof.
  intros Hndl. rewrite literal_iface_unfold.
  destruct (excess_ok lit (Known body)) eqn:Hex.
  - apply excess_ok_iface in Hex. rewrite conforms_iface_true.
    rewrite !Forall_forall in *. split.
    + intros H p Hp. destruct (list_elem_of_fmap_1 fst body p.1 (Hex p Hp))
        as [m [Hpm Hm]].
      exists (mem_ty m). split.
      * rewrite Hpm. rewrite (assoc_NoDup m.1 m.2 body Hnd);
          [|by destruct m]. destruct m as [k [o t]].
        pose proof (Hopt _ Hm) as Ho. unfold mem_optional in Ho. simpl in *. by subst.
      * apply (H m Hm). unfold mem_name. rewrite <- Hpm. apply assoc_NoDup; [done|by destruct p].
    + intros H m Hm t Ht. apply assoc_Some in Ht.
      destruct (H _ Ht) as (t' & Hb & Ht').
      unfold mem_name in Hb. simpl in Hb.
      rewrite (assoc_NoDup m.1 m.2 body Hnd) in Hb; [|by destruct m].
      injection Hb as Hb. unfold mem_ty. by rewrite Hb.
  - split; [discriminate|]. intros H. exfalso.
    assert (excess_ok lit (Known body) = true) as Hok; [|by rewrite Hok in Hex].
    apply excess_ok_iface. eapply Forall_impl; [exact H|].
    intros p (t & Hb & _). apply assoc_Some in Hb.
    by apply (list_elem_of_fmap_2 fst _ (p.1, (true, t))).
Qed.
(** A literal with one property is checked against that member alone. *)
Lemma conforms_single rec k t :
  conforms rec [(k, (false, t))] body =
  match assoc k body with
  | Some (_, T) => rec t T
  | None => Some true
  end.
Proof.
  unfold conforms. clear Hn Hne. induction body as [|[k' [o T]] body' IH]; [done|].
  simpl in *. inversion Hnd as [|? ? Hk' Hnd']; subst.
  inversion Hopt as [|? ? Ho Hopt']; subst. unfold mem_optional in Ho; simpl in Ho; subst.
  unfold mem_name; simpl. rewrite (String.eqb_sym k' k).
  destruct (String.eqb_spec k k') as [->|Hne'].
  - simpl. unfold mem_ty at 1. simpl.
    erewrite (proj2 (oall_true _ _)); [by rewrite oand_true_r|].
    apply Forall_forall. intros m Hm.
    destruct (String.eqb_spec m.1 k') as [Heq|_].
    + exfalso. apply Hk'. rewrite <- Heq. by apply list_elem_of_fmap_2.
    + rewrite Forall_forall in Hopt'. by rewrite (Hopt' m Hm).
  - simpl. rewrite <- IH by done. by destruct (oall _ body') as [[]|].
Qed.

Lemma literal_iface_single f k t :
  literal_assignable E (S (S f)) [(k, t)] (TRef n []) =
  match assoc k body with
  | Some (_, T) => assignable E (S f) t T
  | None => Some false
  end.
Proof.
  rewrite literal_iface_unfold.
  assert (excess_ok [(k, t)] (Known body) = has_key k body) as ->.
  { unfold excess_ok. clear Hn Hopt Hnd. destruct body; [done|]. simpl.
    by rewrite andb_true_r. }
  destruct (has_key k body) eqn:Hk.
  - apply has_key_spec in Hk. simpl. rewrite conforms_single.
    by destruct (assoc_elem_of k body Hk) as [[o T] ->].
  - destruct (assoc k body) eqn:Ha; [|done].
    apply assoc_Some in Ha. exfalso.
    assert (has_key k body = true) as Ht; [|by rewrite Ht in Hk].
    apply has_key_spec. by apply (list_elem_of_fmap_2 fst _ (k, p)).
Qed.
End IfaceLiteral.

(** ** Assignability to [Object] and to [string|any] *)

(** How deep unions nest: the fuel a union source needs to be taken
    apart. *)
Fixpoint union_depth (t : ty) : nat :=
  match t with
  | TUnion a b => S (Nat.max (union_depth a) (union_depth b))
  | _ => 0
  end.

(** The types whose values are not [void]: every type but [void] and the
    unions that contain it. *)
Fixpoint not_void (t : ty) : bool :=
  match t with
  | TVoid => false
  | TUnion a b => not_void a && not_void b
  | _ => true
  end.

Section Targets.
Variable E : tenv.

Lemma assignable_S k s t :
  assignable E (S k) s t = assign_step E (assignable E k) (props_of E k) s t.
Proof. reflexivity. Qed.

(** Everything is assignable to [any] and to the error type of an
    unresolved name. *)
Lemma assignable_any_target k s : assignable E (S k) s TAny = Some true.
Proof. rewrite assignable_S. unfold assign_step. by rewrite orb_true_r, orb_true_l. Qed.

Lemma assignable_error_target k s n args :
  E !! n = None -> assignable E (S k) s (TRef n args) = Some true.
Proof.
  intros Hn. rewrite assignable_S. unfold assign_step.
  assert (is_error_ref E (TRef n args) = true) as -> by (simpl; by rewrite Hn).
  by rewrite orb_true_r.
Qed.

(** Exactly the non-[void] types are assignable to [Object]. *)
Lemma assignable_Object k t :
  E !! "Object" = Some DObject -> union_depth t < k ->
  assignable E k t (TRef "Object" []) = Some (not_void t).
Proof.
  intros HO. revert k.
  induction t as [| | | | | | | s | a b IHa IHb | ps r _ _ | ms _ | n args _]
    using ty_ind_nested; intros [|k] Hd;
    simpl in Hd; try lia; cbn [assignable]; unfold assign_step;
    cbn [is_any is_nullish is_error_ref orb]; rewrite ?HO; try reflexivity;
    try (unfold ref_step; rewrite HO; reflexivity).
  - rewrite IHa, IHb by lia. simpl. by destruct (not_void a), (not_void b).
  - destruct (E !! n); simpl; [|done]. unfold ref_step. by rewrite HO.
Qed.

(** Every type is assignable to [string|any]: the union with [any]
    constrains nothing. *)
Lemma assignable_string_any k t :
  union_depth t + 2 <= k -> assignable E k t (TUnion TString TAny) = Some true.
Proof.
  revert k.
  induction t as [| | | | | | | s | a b IHa IHb | ps r _ _ | ms _ | n args _]
    using ty_ind_nested; intros [|[|k]] Hd;
    simpl in Hd; try lia; rewrite assignable_S; unfold assign_step;
    cbn [is_any is_nullish is_error_ref orb]; try reflexivity.
  - rewrite IHa, IHb by lia. reflexivity.
  - destruct (E !! n) eqn:En; simpl; [|reflexivity].
    unfold assign_step. simpl. by rewrite En.
Qed.
End Targets.
