(* ===== verification/TsSpec.v ===== *)
(** * Assignability as a relation, and the checker against it

    [Assignable E s t] is the assignment compatibility of the TypeScript
    1.8 specification (section 3.11.4) for the types of [TsType], one rule
    per case of the specification: [any], [null], [undefined] and the
    error type of an unresolved name on either side; a union source when
    each constituent is assignable, a union target when one is; the
    primitive types and string literals; function types with bivariant
    parameters (the auxiliary relation [Related]); object types member by
    member ([HasProps] lists the properties a source is known to have);
    the nominal library types [Object], [Function] and the opaque
    interfaces, reached directly or through what the source extends; and
    interfaces, through their heritage and their members.

    Theorems [assignable_sound], [assignable_refutes] and
    [assignable_complete] show that the fuelled checker [TsCheck.assignable]
    decides this relation: a [Some true] answer is a derivation, a
    [Some false] answer rules every derivation out, and every derivation
    is found with enough fuel. *)

From stdpp Require Import base list option strings gmap.
From S2P Require Import Prelude TsType TsCheck.

Definition is_union (t : ty) : bool := match t with TUnion _ _ => true | _ => false end.

(** The targets a source reaches through what it extends: [Function] and
    the opaque library interfaces. *)
Definition is_nominal (E : tenv) (n : string) : bool :=
  match E !! n with Some DFunction | Some (DOpaque _) => true | _ => false end.

Section Spec.
Variable E : tenv.

(** [HasProps s sp]: [s] is known to have the properties [sp], its own
    members first and then, in order, those of what it extends. *)
Inductive HasProps : ty -> list member -> Prop :=
| HP_obj ms : HasProps (TObj ms) ms
| HP_boolean : HasProps TBoolean []
| HP_number : HasProps TNumber []
| HP_string : HasProps TString []
| HP_strlit x : HasProps (TStrLit x) []
| HP_fun ps r : HasProps (TFun ps r) []
| HP_object m args : E !! m = Some DObject -> HasProps (TRef m args) []
| HP_function m args : E !! m = Some DFunction -> HasProps (TRef m args) []
| HP_iface m args h body sps :
    E !! m = Some (DIface h body) -> length h = length sps ->
    (forall i e sp, h !! i = Some e -> sps !! i = Some sp -> HasProps e sp) ->
    HasProps (TRef m args) (body ++ concat sps).

(** The members of a target that do not compare types: a required member
    is present, and is not met by an optional property. *)
Definition ConformsShape (sp body : list member) : Prop :=
  forall m, m ∈ body ->
    match assoc (mem_name m) sp with
    | Some (o, _) => o = true -> mem_optional m = true
    | None => mem_optional m = true
    end.

Inductive Assignable : ty -> ty -> Prop :=
| A_any_l t : Assignable TAny t
| A_any_r s : Assignable s TAny
| A_null t : Assignable TNull t
| A_undefined t : Assignable TUndefined t
| A_error_l n args t : E !! n = None -> Assignable (TRef n args) t
| A_error_r s n args : E !! n = None -> Assignable s (TRef n args)
| A_union_l a b t : Assignable a t -> Assignable b t -> Assignable (TUnion a b) t
| A_union_r1 s a b : is_union s = false -> Assignable s a -> Assignable s (TUnion a b)
| A_union_r2 s a b : is_union s = false -> Assignable s b -> Assignable s (TUnion a b)
| A_void : Assignable TVoid TVoid
| A_boolean : Assignable TBoolean TBoolean
| A_number : Assignable TNumber TNumber
| A_string : Assignable TString TString
| A_strlit_string x : Assignable (TStrLit x) TString
| A_strlit x : Assignable (TStrLit x) (TStrLit x)
| A_fun_void ps r qs :
    length ps <= length qs ->
    (forall p q, (p, q) ∈ zip ps.*2 qs.*2 -> Related p q) ->
    Assignable (TFun ps r) (TFun qs TVoid)
| A_fun ps r qs r' :
    length ps <= length qs ->
    (forall p q, (p, q) ∈ zip ps.*2 qs.*2 -> Related p q) ->
    Assignable r r' -> Assignable (TFun ps r) (TFun qs r')
| A_structural s sp ms :
    is_union s = false -> HasProps s sp -> ConformsShape sp ms ->
    (forall m o st, m ∈ ms -> assoc (mem_name m) sp = Some (o, st) ->
                    Assignable st (mem_ty m)) ->
    Assignable s (TObj ms)
| A_object s n args :
    is_union s = false -> E !! n = Some DObject -> is_void s = false ->
    Assignable s (TRef n args)
| A_function s n args :
    is_union s = false -> E !! n = Some DFunction -> is_function E s = true ->
    Assignable s (TRef n args)
| A_heritage s e n args :
    is_union s = false -> is_nominal E n = true -> e ∈ heritage_of E s ->
    Assignable e (TRef n args) -> Assignable s (TRef n args)
| A_same_ref m k args' args :
    E !! m = Some (DOpaque k) -> length args' = length args ->
    (forall i a' a, args' !! i = Some a' -> args !! i = Some a -> Assignable a' a) ->
    Assignable (TRef m args') (TRef m args)
| A_iface_same m h body args' args :
    E !! m = Some (DIface h body) -> Assignable (TRef m args') (TRef m args)
| A_iface s n args h body sp :
    is_union s = false -> E !! n = Some (DIface h body) ->
    (forall e, e ∈ h -> Assignable s e) ->
    HasProps s sp -> ConformsShape sp body ->
    (forall m o st, m ∈ body -> assoc (mem_name m) sp = Some (o, st) ->
                    Assignable st (mem_ty m)) ->
    Assignable s (TRef n args)
(** Parameters are compared in either direction. *)
with Related : ty -> ty -> Prop :=
| R_co p q : Assignable p q -> Related p q
| R_contra p q : Assignable q p -> Related p q.

Scheme Assignable_mut := Induction for Assignable Sort Prop
with Related_mut := Induction for Related Sort Prop.
End Spec.

(** ** The property table decides [HasProps] *)

Lemma kcombine_None_l b : kcombine None b = None.
Proof. by destruct b as [[]|]. Qed.

Lemma foldl_kcombine_None l : foldl kcombine None l = None.
Proof. induction l as [|x l IH]; cbn [foldl]; [done|]. by rewrite kcombine_None_l. Qed.

Lemma foldl_kcombine_Unknown l :
  foldl kcombine (Some Unknown) l = None \/ foldl kcombine (Some Unknown) l = Some Unknown.
Proof.
  induction l as [|[[]|] l IH]; simpl; [by right|done|done|].
  left. apply foldl_kcombine_None.
Qed.

Lemma foldl_kcombine_sound b l r :
  foldl kcombine (Some (Known b)) l = Some (Known r) ->
  exists sps, Forall2 (fun x sp => x = Some (Known sp)) l sps /\ r = b ++ concat sps.
Proof.
  revert b. induction l as [|[[sp|]|] l IH]; simpl; intros b H.
  - injection H as <-. exists []. by rewrite app_nil_r.
  - destruct (IH _ H) as (sps & Hl & ->). exists (sp :: sps).
    split; [by constructor|]. simpl. by rewrite app_assoc.
  - by destruct (foldl_kcombine_Unknown l) as [Hu|Hu]; rewrite Hu in H.
  - by rewrite foldl_kcombine_None in H.
Qed.

Lemma foldl_kcombine_exact b l sps :
  Forall2 (fun x sp => x = Some (Known sp)) l sps ->
  foldl kcombine (Some (Known b)) l = Some (Known (b ++ concat sps)).
Proof.
  intros Hl. revert b. induction Hl as [|x sp l sps -> _ IH]; intros b; simpl.
  - by rewrite app_nil_r.
  - by rewrite IH, app_assoc.
Qed.

Section Props.
Variable E : tenv.

Lemma props_of_sound k s sp : props_of E k s = Some (Known sp) -> HasProps E s sp.
Proof.
  revert s sp. induction k as [|k IH]; intros s sp; [discriminate|].
  destruct s; simpl; try (intros [= <-]; constructor); try discriminate.
  destruct (E !! name) as [[h body| | |]|] eqn:Hm; try discriminate.
  - intros (sps & Hl & ->)%foldl_kcombine_sound.
    apply Forall2_fmap_l, Forall2_same_length_lookup in Hl as [Hlen Hl].
    apply HP_iface with h; [done|done|]. intros i e sp' He Hsp. apply IH. by apply (Hl i).
  - intros [= <-]. by constructor.
  - intros [= <-]. by constructor.
Qed.

Lemma props_of_enough s sp : HasProps E s sp -> exists k, props_of E k s = Some (Known sp).
Proof.
  induction 1 as [| | | | | | m args Hm| m args Hm| m args h body sps Hm Hlen _ IH];
    try (exists 1; simpl; rewrite ?Hm; done).
  destruct (fuel_uniform_lt (fun k i => forall e sp, h !! i = Some e -> sps !! i = Some sp ->
              props_of E k e = Some (Known sp)) (length h)) as [k Hk].
  - intros k k' i Hle Hp e sp He Hsp. apply (props_of_mono E k); [done|]. by apply (Hp e sp).
  - intros i Hi. destruct (lookup_lt_is_Some_2 h i Hi) as [e He].
    destruct (lookup_lt_is_Some_2 sps i) as [sp Hsp]; [lia|].
    destruct (IH i e sp He Hsp) as [k Hk]. exists k. intros e' sp'. by rewrite He, Hsp; intros [= <-] [= <-].
  - exists (S k). simpl. rewrite Hm. apply foldl_kcombine_exact, Forall2_fmap_l.
    apply Forall2_same_length_lookup. split; [done|]. intros i e sp He Hsp.
    apply (Hk i); [by apply lookup_lt_Some in He|done|done].
Qed.

(** What the table answers, it answers for the properties [s] has. *)
Lemma props_of_determined k s sp kn :
  HasProps E s sp -> props_of E k s = Some kn -> kn = Known sp.
Proof.
  intros Hs Hk. destruct (props_of_enough s sp Hs) as [k' Hk'].
  apply (props_of_mono E k (k `max` k')) in Hk; [|lia].
  apply (props_of_mono E k' (k `max` k')) in Hk'; [|lia]. congruence.
Qed.

Lemma HasProps_functional s sp sp' : HasProps E s sp -> HasProps E s sp' -> sp = sp'.
Proof.
  intros Hs Hs'. destruct (props_of_enough s sp Hs) as [k Hk].
  by injection (props_of_determined k s sp' _ Hs' Hk).
Qed.

(** Only a declared name has known properties. *)
Lemma HasProps_ref_declared n args sp :
  HasProps E (TRef n args) sp -> is_error_ref E (TRef n args) = false.
Proof.
  inversion 1; simpl;
    match goal with Hn : E !! n = Some _ |- _ => by rewrite Hn end.
Qed.
End Props.

(** Invert a derivation whose source and target are not covered by the
    shortcut rules ([any], [null], [undefined], unresolved names). *)
Ltac inv_assignable HA :=
  inversion HA; subst; try discriminate;
  try match goal with
      | Hm : ?E !! ?m = None, He : is_error_ref ?E (TRef ?m _) = false |- _ =>
          simpl in He; rewrite Hm in He; discriminate
      end.

(** ** A [true] answer is a derivation *)

Section StepSound.
Variables (E : tenv) (rec : ty -> ty -> option bool) (props : ty -> option known).
Hypothesis Hrec : forall s t, rec s t = Some true -> Assignable E s t.
Hypothesis Hprops : forall s sp, props s = Some (Known sp) -> HasProps E s sp.

Lemma shortcut_sound s t :
  (is_any s || is_any t || is_nullish s || is_error_ref E s || is_error_ref E t) = true ->
  Assignable E s t.
Proof.
  rewrite !orb_true_iff. intros [[[[H|H]|H]|H]|H].
  - destruct s; try discriminate. constructor.
  - destruct t; try discriminate. constructor.
  - destruct s; try discriminate; constructor.
  - destruct s; try discriminate. simpl in H.
    destruct (E !! name) eqn:Hn; [discriminate|]. by constructor.
  - destruct t; try discriminate. simpl in H.
    destruct (E !! name) eqn:Hn; [discriminate|]. by constructor.
Qed.

Lemma conforms_sound sp body :
  conforms rec sp body = Some true ->
  ConformsShape sp body /\
  (forall m o st, m ∈ body -> assoc (mem_name m) sp = Some (o, st) -> Assignable E st (mem_ty m)).
Proof.
  unfold conforms. rewrite oall_true, Forall_forall. intros H. split.
  - intros m Hm. specialize (H m Hm). destruct (assoc (mem_name m) sp) as [[o st]|]; [|congruence].
    intros ->. by destruct (mem_optional m).
  - intros m o st Hm Ha. specialize (H m Hm). rewrite Ha in H.
    destruct (o && negb (mem_optional m)); [discriminate|]. by apply Hrec.
Qed.

Lemma structural_sound s body :
  structural rec props s body = Some true ->
  exists sp, HasProps E s sp /\ ConformsShape sp body /\
    (forall m o st, m ∈ body -> assoc (mem_name m) sp = Some (o, st) -> Assignable E st (mem_ty m)).
Proof.
  unfold structural. destruct (props s) as [[sp|]|] eqn:Hp; try discriminate.
  intros H. exists sp. split; [by apply Hprops|]. by apply conforms_sound.
Qed.

Lemma fun_step_sound ps r qs r' :
  fun_step rec ps r qs r' = Some true -> Assignable E (TFun ps r) (TFun qs r').
Proof.
  unfold fun_step. rewrite !oand_true, oall_true, Forall_forall.
  intros [[Hlen Hpq] Hr]. injection Hlen as Hlen%Nat.leb_le.
  assert (forall p q, (p, q) ∈ zip ps.*2 qs.*2 -> Related E p q) as Hrel.
  { intros p q Hin. apply Hpq, oor_true in Hin as [H|H]; [apply R_co|apply R_contra]; by apply Hrec. }
  destruct r'; try (apply A_fun; [done|done|by apply Hrec]). by apply A_fun_void.
Qed.

Lemma via_heritage_sound s n args :
  is_union s = false -> is_nominal E n = true ->
  via_heritage E rec s (TRef n args) = Some true -> Assignable E s (TRef n args).
Proof.
  intros Hu Hnom. unfold via_heritage. rewrite oany_true. intros (e & He & H).
  apply (A_heritage E s e); [done|done|done|by apply Hrec].
Qed.

Lemma ref_step_sound s n args :
  is_union s = false -> ref_step E rec props s n args = Some true ->
  Assignable E s (TRef n args).
Proof.
  intros Hu. unfold ref_step.
  destruct (E !! n) as [[h body|k| |]|] eqn:Hn; [..|intros _; by apply A_error_r].
  - assert (oall (rec s) h &&? structural rec props s body = Some true ->
            Assignable E s (TRef n args)) as Hi.
    { rewrite oand_true, oall_true, Forall_forall. intros [Hh (sp & Hsp & Hsh & Hm)%structural_sound].
      apply (A_iface E s n args h body sp); [done|done| |done|done|done].
      intros e He. by apply Hrec, Hh. }
    destruct s; try exact Hi. destruct (String.eqb_spec name n) as [->|_]; [|exact Hi].
    intros _. by apply (A_iface_same E n h body).
  - rewrite oor_true. intros [H|H]; [|apply via_heritage_sound; [done|by unfold is_nominal; rewrite Hn|done]].
    destruct s; try discriminate. simpl in H.
    destruct (String.eqb_spec name n) as [->|_]; [|discriminate].
    apply oall2_true, Forall2_same_length_lookup in H as [Hlen H].
    apply (A_same_ref E n k); [done|done|]. intros i a' a Ha' Ha. by apply Hrec, (H i).
  - intros [= Hv]. apply A_object; [done|done|]. by destruct (is_void s).
  - rewrite oor_true. intros [[= Hf]|H]; [by apply A_function|].
    apply via_heritage_sound; [done|by unfold is_nominal; rewrite Hn|done].
Qed.

Lemma assign_step_sound s t : assign_step E rec props s t = Some true -> Assignable E s t.
Proof.
  unfold assign_step. destruct (_ || _) eqn:Hsc; [intros _; by apply shortcut_sound|].
  destruct s, t; cbn iota beta; intros H;
    first [ discriminate
          | apply oand_true in H as [H1 H2]; apply A_union_l; by apply Hrec
          | apply oor_true in H as [H1|H1]; [apply A_union_r1|apply A_union_r2];
            [done|by apply Hrec|done|by apply Hrec]
          | by apply fun_step_sound
          | destruct (structural_sound _ _ H) as (sp & ? & ? & ?); by eapply A_structural
          | by apply ref_step_sound
          | constructor
          | injection H as ->%String.eqb_eq; constructor ].
Qed.
End StepSound.

Theorem assignable_sound E k s t : assignable E k s t = Some true -> Assignable E s t.
Proof.
  revert s t. induction k as [|k IH]; intros s t; [discriminate|].
  apply assign_step_sound; [exact IH|]. apply props_of_sound.
Qed.

(** ** A [false] answer rules every derivation out *)

Section StepRefute.
Variables (E : tenv) (rec : ty -> ty -> option bool) (props : ty -> option known).
Hypothesis Hrec : forall s t, rec s t = Some false -> ~ Assignable E s t.
Hypothesis Hprops : forall s sp kn, HasProps E s sp -> props s = Some kn -> kn = Known sp.

Lemma conforms_refute sp body :
  conforms rec sp body = Some false -> ConformsShape sp body ->
  (forall m o st, m ∈ body -> assoc (mem_name m) sp = Some (o, st) -> Assignable E st (mem_ty m)) ->
  False.
Proof.
  unfold conforms. rewrite oall_false. intros (m & Hm & H) Hsh Hmem.
  specialize (Hsh m Hm). destruct (assoc (mem_name m) sp) as [[o st]|] eqn:Ha.
  - destruct o, (mem_optional m) eqn:Ho; simpl in H; try (by eapply Hrec, Hmem); by specialize (Hsh eq_refl).
  - congruence.
Qed.

Lemma structural_refute s body sp :
  structural rec props s body = Some false -> HasProps E s sp -> ConformsShape sp body ->
  (forall m o st, m ∈ body -> assoc (mem_name m) sp = Some (o, st) -> Assignable E st (mem_ty m)) ->
  False.
Proof.
  unfold structural. intros H Hs. destruct (props s) as [kn|] eqn:Hp; [|discriminate].
  rewrite (Hprops s sp kn Hs Hp) in H. by apply conforms_refute.
Qed.

Lemma fun_step_refute ps r qs r' :
  fun_step rec ps r qs r' = Some false -> length ps <= length qs ->
  (forall p q, (p, q) ∈ zip ps.*2 qs.*2 -> Related E p q) ->
  r' = TVoid \/ Assignable E r r' -> False.
Proof.
  unfold fun_step. rewrite !oand_false, oall_false. intros [[H|(pq & Hpq & H)]|H] Hlen Hrel Hr.
  - injection H as H%Nat.leb_gt. lia.
  - destruct pq as [p q]. apply oor_false in H as [H1 H2].
    destruct (Hrel p q Hpq); [by apply (Hrec p q)|by apply (Hrec q p)].
  - destruct Hr as [->|Hr]; [discriminate|]. destruct (is_void r'); [discriminate|]. by eapply Hrec.
Qed.

Lemma iface_body_refute s h body sp :
  oall (rec s) h &&? structural rec props s body = Some false ->
  (forall e, e ∈ h -> Assignable E s e) -> HasProps E s sp -> ConformsShape sp body ->
  (forall m o st, m ∈ body -> assoc (mem_name m) sp = Some (o, st) -> Assignable E st (mem_ty m)) ->
  False.
Proof.
  rewrite oand_false, oall_false. intros [(e & He & H)|H] Hh Hs Hsh Hm.
  - by apply (Hrec s e), Hh.
  - by apply (structural_refute s body sp).
Qed.

Lemma ref_step_refute s n args :
  is_any s = false -> is_nullish s = false -> is_error_ref E s = false -> is_union s = false ->
  ref_step E rec props s n args = Some false -> ~ Assignable E s (TRef n args).
Proof.
  intros Ha Hn He Hu H HA. unfold ref_step in H.
  inversion HA as [| |t0|t0|m args0 t0 Hm| s0 m args0 Hm|a b t0| | | | | | | | | | |
    |s0 m args0 _ Hm Hv|s0 m args0 _ Hm Hf|s0 e m args0 _ Hnom Hin He'
    |m k args0 args1 Hm Hlen Hargs|m h body args0 args1 Hm|s0 m args0 h body sp _ Hm Hh Hsp Hsh Hmem];
    subst; try discriminate.
  - simpl in He. by rewrite Hm in He.
  - by rewrite Hm in H.
  - rewrite Hm, Hv in H. discriminate.
  - rewrite Hm, Hf in H. discriminate.
  - unfold is_nominal in Hnom. unfold via_heritage in H.
    destruct (E !! n) as [[]|]; try discriminate; apply oor_false in H as [_ H];
      apply oany_false in H; rewrite Forall_forall in H; by apply (Hrec e (TRef n args)); [apply H|].
  - rewrite Hm in H. apply oor_false in H as [H _]. simpl in H. rewrite String.eqb_refl in H.
    destruct (oall2_false _ _ _ H) as [|(i & a' & a & Ha' & Hai & Hr)]; [done|].
    by apply (Hrec a' a), (Hargs i).
  - rewrite Hm, String.eqb_refl in H. discriminate.
  - rewrite Hm in H. destruct s; try (by eapply iface_body_refute).
    destruct (String.eqb name n); [discriminate|by eapply iface_body_refute].
Qed.

Lemma union_l_inv a b t :
  is_any t = false -> is_error_ref E t = false ->
  Assignable E (TUnion a b) t -> Assignable E a t /\ Assignable E b t.
Proof. intros ?? HA. by inv_assignable HA. Qed.

Lemma union_r_inv s a b :
  is_any s = false -> is_nullish s = false -> is_error_ref E s = false -> is_union s = false ->
  Assignable E s (TUnion a b) -> Assignable E s a \/ Assignable E s b.
Proof. intros ???? HA. inv_assignable HA; [left|right]; done. Qed.

Lemma fun_inv ps r qs r' :
  Assignable E (TFun ps r) (TFun qs r') ->
  length ps <= length qs /\ (forall p q, (p, q) ∈ zip ps.*2 qs.*2 -> Related E p q) /\
  (r' = TVoid \/ Assignable E r r').
Proof. intros HA. inv_assignable HA; auto. Qed.

Lemma obj_inv s ms :
  is_any s = false -> is_nullish s = false -> is_error_ref E s = false -> is_union s = false ->
  Assignable E s (TObj ms) ->
  exists sp, HasProps E s sp /\ ConformsShape sp ms /\
    (forall m o st, m ∈ ms -> assoc (mem_name m) sp = Some (o, st) -> Assignable E st (mem_ty m)).
Proof. intros ???? HA. inv_assignable HA. eauto. Qed.

(** A source that lacks a required member of an interface is not
    assignable to the interface, unless it is a reference to it. *)
Lemma iface_missing_inv s n args h body sp m :
  is_any s = false -> is_nullish s = false -> is_error_ref E s = false -> is_union s = false ->
  (forall args', s <> TRef n args') -> E !! n = Some (DIface h body) -> HasProps E s sp ->
  m ∈ body -> mem_optional m = false -> assoc (mem_name m) sp = None ->
  ~ Assignable E s (TRef n args).
Proof.
  intros ???? Hself HE Hs Hm Ho Ha HA. inv_assignable HA; try congruence.
  - unfold is_nominal in *. by rewrite HE in *.
  - match goal with
    | H : E !! n = Some (DIface _ _) |- _ => rewrite HE in H; simplify_eq
    end.
    match goal with
    | Hs' : HasProps E s ?sp', Hsh : ConformsShape ?sp' _ |- _ =>
        rewrite (HasProps_functional E s sp' sp Hs' Hs) in Hsh; specialize (Hsh m Hm)
    end.
    rewrite Ha in *. congruence.
Qed.

Lemma assign_step_refute s t : assign_step E rec props s t = Some false -> ~ Assignable E s t.
Proof.
  unfold assign_step. intros H HA. destruct (_ || _) eqn:Hsc; [discriminate|].
  rewrite !orb_false_iff in Hsc. destruct Hsc as [[[[Has Hat] Hns] Hes] Het].
  destruct s, t; cbn iota beta in H;
    first [ discriminate H
          | apply oand_false in H as [H|H]; destruct (union_l_inv _ _ _ Hat Het HA);
            by eapply Hrec
          | apply oor_false in H as [H1 H2];
            destruct (union_r_inv _ _ _ Has Hns Hes eq_refl HA) as [HA'|HA'];
            [by apply (Hrec _ _ H1)|by apply (Hrec _ _ H2)]
          | destruct (fun_inv _ _ _ _ HA) as (? & ? & ?); by eapply fun_step_refute
          | destruct (obj_inv _ _ Has Hns Hes eq_refl HA) as (sp & ? & ? & ?);
            by eapply structural_refute
          | by apply (ref_step_refute _ _ _ Has Hns Hes eq_refl H)
          | inv_assignable HA; rewrite String.eqb_refl in H; discriminate ].
Qed.
End StepRefute.

Theorem assignable_refutes E k s t : assignable E k s t = Some false -> ~ Assignable E s t.
Proof.
  revert s t. induction k as [|k IH]; intros s t; [discriminate|].
  apply assign_step_refute; [exact IH|]. intros s' sp kn Hs Hk. by eapply props_of_determined.
Qed.

(** ** Every derivation is found with enough fuel *)

Section Complete.
Variable E : tenv.

Lemma assignable_up k k' s t :
  k <= k' -> assignable E k s t = Some true -> assignable E k' s t = Some true.
Proof. intros Hle H. by apply (assignable_mono E k). Qed.

Lemma props_up k k' s sp :
  k <= k' -> props_of E k s = Some (Known sp) -> props_of E k' s = Some (Known sp).
Proof. intros Hle H. by apply (props_of_mono E k). Qed.

Lemma assignable_shortcut k s t :
  (is_any s || is_any t || is_nullish s || is_error_ref E s || is_error_ref E t) = true ->
  assignable E (S k) s t = Some true.
Proof. intros H. rewrite assignable_S. unfold assign_step. by rewrite H. Qed.

Section Steps.
Variables (rec : ty -> ty -> option bool) (props : ty -> option known).

Lemma step_union_l a b t :
  rec a t &&? rec b t = Some true -> assign_step E rec props (TUnion a b) t = Some true.
Proof. unfold assign_step. by destruct (_ || _). Qed.

Lemma step_union_r s a b :
  is_union s = false -> rec s a ||? rec s b = Some true ->
  assign_step E rec props s (TUnion a b) = Some true.
Proof. unfold assign_step. destruct (_ || _); [done|]. by destruct s. Qed.

Lemma step_fun ps r qs r' :
  fun_step rec ps r qs r' = Some true ->
  assign_step E rec props (TFun ps r) (TFun qs r') = Some true.
Proof. unfold assign_step. by destruct (_ || _). Qed.

Lemma step_obj s ms :
  is_union s = false -> structural rec props s ms = Some true ->
  assign_step E rec props s (TObj ms) = Some true.
Proof. unfold assign_step. destruct (_ || _); [done|]. by destruct s. Qed.

Lemma step_ref s n args :
  is_union s = false -> ref_step E rec props s n args = Some true ->
  assign_step E rec props s (TRef n args) = Some true.
Proof. unfold assign_step. destruct (_ || _); [done|]. by destruct s. Qed.

Lemma conforms_complete sp body :
  ConformsShape sp body ->
  (forall m o st, m ∈ body -> assoc (mem_name m) sp = Some (o, st) -> rec st (mem_ty m) = Some true) ->
  conforms rec sp body = Some true.
Proof.
  intros Hsh Hm. apply oall_true, Forall_forall. intros m Hin. specialize (Hsh m Hin).
  destruct (assoc (mem_name m) sp) as [[o st]|] eqn:Ha; [|by rewrite Hsh].
  destruct o, (mem_optional m) eqn:Ho; simpl; try (by eapply Hm); by specialize (Hsh eq_refl).
Qed.

Lemma fun_step_complete ps r qs r' :
  length ps <= length qs ->
  (forall pq, pq ∈ zip ps.*2 qs.*2 -> rec pq.1 pq.2 ||? rec pq.2 pq.1 = Some true) ->
  (r' = TVoid \/ rec r r' = Some true) -> fun_step rec ps r qs r' = Some true.
Proof.
  intros Hlen Hpq Hr. unfold fun_step. rewrite !oand_true, oall_true, Forall_forall.
  split; [split; [by apply Nat.leb_le in Hlen as ->|done]|].
  destruct Hr as [->|Hr]; [done|]. by destruct (is_void r').
Qed.
End Steps.

(** The fuel a family of derivations needs, taken together. *)
Lemma members_fuel (sp body : list member) :
  (forall m o st, m ∈ body -> assoc (mem_name m) sp = Some (o, st) ->
     exists k, assignable E k st (mem_ty m) = Some true) ->
  exists k, forall k', k <= k' -> forall m o st, m ∈ body ->
    assoc (mem_name m) sp = Some (o, st) -> assignable E k' st (mem_ty m) = Some true.
Proof.
  intros IH.
  destruct (fuel_uniform_in (fun k m => forall o st, assoc (mem_name m) sp = Some (o, st) ->
              assignable E k st (mem_ty m) = Some true) body) as [k Hk].
  - intros k k' m Hle H o st Ha. by apply (assignable_up k), (H o).
  - intros m Hm. destruct (assoc (mem_name m) sp) as [[o st]|] eqn:Ha.
    + destruct (IH m o st Hm Ha) as [k Hk]. exists k. intros o' st' [= <- <-]. done.
    + exists 0. done.
  - exists k. intros k' Hle m o st Hm Ha. by apply (assignable_up k), (Hk m Hm o).
Qed.

Lemma structural_fuel s (sp body : list member) :
  HasProps E s sp -> ConformsShape sp body ->
  (forall m o st, m ∈ body -> assoc (mem_name m) sp = Some (o, st) ->
     exists k, assignable E k st (mem_ty m) = Some true) ->
  exists k, forall k', k <= k' ->
    structural (assignable E k') (props_of E k') s body = Some true.
Proof.
  intros Hs Hsh IH. destruct (members_fuel sp body IH) as [km Hm].
  destruct (props_of_enough E s sp Hs) as [kp Hp].
  exists (km `max` kp). intros k' Hle. unfold structural.
  rewrite (props_up kp k' s sp); [|lia|done].
  apply conforms_complete; [done|]. intros m o st Hin Ha. by apply (Hm k' ltac:(lia) m o st).
Qed.

Lemma heritage_fuel s (h : list ty) :
  (forall e, e ∈ h -> exists k, assignable E k s e = Some true) ->
  exists k, forall k', k <= k' -> oall (assignable E k' s) h = Some true.
Proof.
  intros IH. destruct (fuel_uniform_in (fun k e => assignable E k s e = Some true) h) as [k Hk].
  - intros k k' e Hle H. by apply (assignable_up k).
  - exact IH.
  - exists k. intros k' Hle. apply oall_true, Forall_forall. intros e He.
    by apply (assignable_up k), Hk.
Qed.

Lemma complete_fun ps r qs r' :
  length ps <= length qs ->
  (forall p q, (p, q) ∈ zip ps.*2 qs.*2 ->
     exists k, assignable E k p q ||? assignable E k q p = Some true) ->
  (r' = TVoid \/ exists k, assignable E k r r' = Some true) ->
  exists k, assignable E k (TFun ps r) (TFun qs r') = Some true.
Proof.
  intros Hlen IH Hr.
  destruct (fuel_uniform_in (fun k pq => assignable E k pq.1 pq.2 ||? assignable E k pq.2 pq.1
              = Some true) (zip ps.*2 qs.*2)) as [kp Hkp].
  - intros k k' [p q] Hle H.
    by apply (oor_mono _ _ _ _ (assignable_mono E k k' p q Hle) (assignable_mono E k k' q p Hle)).
  - intros [p q] Hpq. by apply IH.
  - destruct Hr as [->|[kr Hr]].
    + exists (S kp). apply step_fun, fun_step_complete; [done|exact Hkp|by left].
    + exists (S (kp `max` kr)). apply step_fun, fun_step_complete; [done| |].
      * intros [p q] Hpq. specialize (Hkp _ Hpq).
        by apply (oor_mono _ _ _ _ (assignable_mono E kp _ p q (Nat.le_max_l _ _))
                                  (assignable_mono E kp _ q p (Nat.le_max_l _ _))).
      * right. apply (assignable_up kr); [lia|done].
Qed.

Lemma complete_union_l a b t :
  (exists k, assignable E k a t = Some true) -> (exists k, assignable E k b t = Some true) ->
  exists k, assignable E k (TUnion a b) t = Some true.
Proof.
  intros [k1 H1] [k2 H2]. exists (S (k1 `max` k2)). apply step_union_l, oand_true.
  split; [apply (assignable_up k1)|apply (assignable_up k2)]; (lia || done).
Qed.

Lemma complete_union_r s a b :
  is_union s = false ->
  (exists k, assignable E k s a = Some true) \/ (exists k, assignable E k s b = Some true) ->
  exists k, assignable E k s (TUnion a b) = Some true.
Proof.
  intros Hu [[k H]|[k H]]; exists (S k); apply step_union_r, oor_true; auto.
Qed.

Lemma complete_struct s sp ms :
  is_union s = false -> HasProps E s sp -> ConformsShape sp ms ->
  (forall m o st, m ∈ ms -> assoc (mem_name m) sp = Some (o, st) ->
     exists k, assignable E k st (mem_ty m) = Some true) ->
  exists k, assignable E k s (TObj ms) = Some true.
Proof.
  intros Hu Hs Hsh IH. destruct (structural_fuel s sp ms Hs Hsh IH) as [k Hk].
  exists (S k). apply step_obj; [done|]. by apply Hk.
Qed.

Lemma complete_heritage s e n args :
  is_union s = false -> is_nominal E n = true -> e ∈ heritage_of E s ->
  (exists k, assignable E k e (TRef n args) = Some true) ->
  exists k, assignable E k s (TRef n args) = Some true.
Proof.
  intros Hu Hnom He [k Hk]. exists (S k). apply step_ref; [done|].
  assert (via_heritage E (assignable E k) s (TRef n args) = Some true) as Hv
    by (apply oany_true; eauto).
  unfold ref_step. unfold is_nominal in Hnom.
  destruct (E !! n) as [[]|]; try discriminate; apply oor_true; by right.
Qed.

Lemma complete_same_ref m k0 args' args :
  E !! m = Some (DOpaque k0) -> length args' = length args ->
  (forall i a' a, args' !! i = Some a' -> args !! i = Some a ->
     exists k, assignable E k a' a = Some true) ->
  exists k, assignable E k (TRef m args') (TRef m args) = Some true.
Proof.
  intros Hm Hlen IH.
  destruct (fuel_uniform_lt (fun k i => forall a' a, args' !! i = Some a' -> args !! i = Some a ->
              assignable E k a' a = Some true) (length args')) as [k Hk].
  - intros k k' i Hle H a' a Ha' Ha. by apply (assignable_up k), (H a' a).
  - intros i Hi. destruct (lookup_lt_is_Some_2 args' i Hi) as [a' Ha'].
    destruct (lookup_lt_is_Some_2 args i) as [a Ha]; [lia|].
    destruct (IH i a' a Ha' Ha) as [k Hk]. exists k. intros a1 a2 Ha1 Ha2. by simplify_eq.
  - exists (S k). apply step_ref; [done|]. unfold ref_step. rewrite Hm. apply oor_true. left.
    simpl. rewrite String.eqb_refl. apply oall2_true, Forall2_same_length_lookup.
    split; [done|]. intros i a' a Ha' Ha. apply (Hk i); [by apply lookup_lt_Some in Ha'|done|done].
Qed.

Lemma complete_iface s n args h body sp :
  is_union s = false -> E !! n = Some (DIface h body) ->
  (forall e, e ∈ h -> exists k, assignable E k s e = Some true) ->
  HasProps E s sp -> ConformsShape sp body ->
  (forall m o st, m ∈ body -> assoc (mem_name m) sp = Some (o, st) ->
     exists k, assignable E k st (mem_ty m) = Some true) ->
  exists k, assignable E k s (TRef n args) = Some true.
Proof.
  intros Hu Hn IHh Hs Hsh IHm.
  destruct (heritage_fuel s h IHh) as [kh Hkh].
  destruct (structural_fuel s sp body Hs Hsh IHm) as [ks Hks].
  exists (S (kh `max` ks)). apply step_ref; [done|]. unfold ref_step. rewrite Hn.
  assert (oall (assignable E (kh `max` ks) s) h &&?
          structural (assignable E (kh `max` ks)) (props_of E (kh `max` ks)) s body = Some true)
    as Hb by (apply oand_true; split; [apply Hkh|apply Hks]; lia).
  destruct s; try exact Hb. by destruct (String.eqb name n).
Qed.
End Complete.

(** Rewrite with the hypothesis that looks a name up, or that gives the
    value of [b]. *)
Ltac rewrite_lookup := match goal with H : _ !! _ = Some _ |- _ => rewrite H end.
Ltac rewrite_hyp b := match goal with H : b = _ |- _ => rewrite H end.

Ltac shortcut_case :=
  exists 1; apply assignable_shortcut; cbn [is_any is_nullish is_error_ref];
  repeat match goal with Hn : ?E !! ?n = None |- context [?E !! ?n] => rewrite Hn end;
  rewrite ?orb_true_r; reflexivity.

Theorem assignable_complete E s t : Assignable E s t -> exists k, assignable E k s t = Some true.
Proof.
  intros HA.
  induction HA using Assignable_mut with
    (P0 := fun p q _ => exists k, assignable E k p q ||? assignable E k q p = Some true);
    try shortcut_case; try (exists 1; reflexivity).
  - by apply complete_union_l.
  - apply complete_union_r; auto.
  - apply complete_union_r; auto.
  - exists 1. rewrite assignable_S. unfold assign_step, obool. cbn [is_any is_nullish is_error_ref orb].
    by rewrite String.eqb_refl.
  - apply complete_fun; auto.
  - apply complete_fun; auto.
  - by eapply complete_struct.
  - exists 1. apply step_ref; [done|]. unfold ref_step. by rewrite_lookup; rewrite_hyp (is_void s).
  - exists 1. apply step_ref; [done|]. unfold ref_step. by rewrite_lookup; rewrite_hyp (is_function E s).
  - by eapply complete_heritage.
  - by eapply complete_same_ref.
  - exists 1. apply step_ref; [done|]. unfold ref_step. rewrite_lookup. by rewrite String.eqb_refl.
  - by eapply complete_iface.
  - destruct IHHA as [k Hk]. exists k. apply oor_true. by left.
  - destruct IHHA as [k Hk]. exists k. apply oor_true. by right.
Qed.

(** ** Every well-formed type is assignable to itself *)

(** The object types of [t] declare each property once: TypeScript
    reports a duplicate identifier otherwise. *)
Fixpoint members_distinct (t : ty) : bool :=
  match t with
  | TUnion a b => members_distinct a && members_distinct b
  | TFun ps r => forallb (fun p => members_distinct p.2) ps && members_distinct r
  | TObj ms => bool_decide (NoDup ms.*1) && forallb (fun m => members_distinct (mem_ty m)) ms
  | TRef _ args => forallb members_distinct args
  | _ => true
  end.

Section Refl.
Variable E : tenv.

Lemma union_r_l s a b : Assignable E s a -> Assignable E s (TUnion a b).
Proof.
  revert a b. induction s; intros a' b' H; try (apply A_union_r1; [done|exact H]).
  inversion H; subst; try discriminate;
    (apply A_union_l; [apply IHs1|apply IHs2]); first [assumption|by constructor].
Qed.

Lemma union_r_r s a b : Assignable E s b -> Assignable E s (TUnion a b).
Proof.
  revert a b. induction s; intros a' b' H; try (apply A_union_r2; [done|exact H]).
  inversion H; subst; try discriminate;
    (apply A_union_l; [apply IHs1|apply IHs2]); first [assumption|by constructor].
Qed.

Theorem assignable_refl t : members_distinct t = true -> Assignable E t t.
Proof.
  induction t as [| | | | | | | x | a b IHa IHb | ps r IHps IHr | ms IHms | n args IHargs]
    using ty_ind_nested; simpl; intros Hwf;
    try (by constructor); rewrite ?andb_true_iff, ?forallb_forall in Hwf.
  - apply A_union_l; [apply union_r_l, IHa|apply union_r_r, IHb]; apply Hwf.
  - destruct Hwf as [Hps Hr]. rewrite Forall_forall in IHps.
    apply A_fun; [done| |by apply IHr]. intros p q [<- (x & -> & Hx)%list_elem_of_fmap]%elem_of_zip_diag.
    apply R_co, IHps; [done|]. by apply Hps, list_elem_of_In.
  - destruct Hwf as [Hnd%bool_decide_eq_true Hms]. rewrite Forall_forall in IHms.
    apply (A_structural E _ ms); [done|constructor| |].
    + intros [k [o st]] Hm. unfold mem_name. simpl. by rewrite (assoc_NoDup k (o, st) ms Hnd Hm).
    + intros [k [o st]] o' st' Hm. unfold mem_name. simpl.
      rewrite (assoc_NoDup k (o, st) ms Hnd Hm). intros [= <- <-].
      by apply (IHms (k, (o, st))), Hms, list_elem_of_In.
  - rewrite Forall_forall in IHargs.
    destruct (E !! n) as [[h body|k| |]|] eqn:Hn.
    + by apply (A_iface_same E n h body).
    + apply (A_same_ref E n k); [done|done|]. intros i a' a Ha' Ha. rewrite Ha' in Ha.
      injection Ha as ->. apply IHargs; [by eapply list_elem_of_lookup_2|].
      by apply Hwf, list_elem_of_In, (list_elem_of_lookup_2 _ i).
    + by apply A_object.
    + apply A_function; [done|done|]. simpl. by rewrite Hn.
    + by apply A_error_r.
Qed.
End Refl.
