(* ===== verification/TsTerm.v ===== *)
(** * Termination of the checker

    The checker [TsCheck.assignable] recurses into the parts of the two
    types and into the declarations of the interfaces they name.  Section
    [Defined] shows that it gives a definite answer whenever its fuel
    exceeds [W s + W t], for any weight [W] that every recursive call
    decreases; Section [Weight] builds such a weight, [tw], for every
    environment whose interfaces are ranked (an interface refers only to
    interfaces of lower rank: no interface refers to itself, directly or
    through others), which is the case of every environment the
    declaration file is compiled in. *)

From stdpp Require Import base list option strings gmap.
From S2P Require Import Prelude TsType TsCheck TsSpec.

Section Defined.
Variables (E : tenv) (W : ty -> nat).
Hypothesis W_pos : forall t, 0 < W t.
Hypothesis W_union_l : forall a b, W a < W (TUnion a b).
Hypothesis W_union_r : forall a b, W b < W (TUnion a b).
Hypothesis W_param : forall ps r p, p ∈ ps -> W p.2 < W (TFun ps r).
Hypothesis W_ret : forall ps r, W r < W (TFun ps r).
Hypothesis W_member : forall ms m, m ∈ ms -> W (mem_ty m) < W (TObj ms).
Hypothesis W_arg : forall n args a, a ∈ args -> W a < W (TRef n args).
Hypothesis W_heritage : forall n args h body e,
  E !! n = Some (DIface h body) -> e ∈ h -> W e < W (TRef n args).
Hypothesis W_body : forall n args h body m,
  E !! n = Some (DIface h body) -> m ∈ body -> W (mem_ty m) < W (TRef n args).

(** The property table answers, and the properties it lists are lighter
    than the type. *)
Definition props_bounded (s : ty) (kn : option known) : Prop :=
  exists k, kn = Some k /\ forall sp, k = Known sp -> forall m, m ∈ sp -> W (mem_ty m) < W s.

Lemma props_bounded_nil s : props_bounded s (Some (Known [])).
Proof. exists (Known []). split; [done|]. by intros ? [= <-] ? ?%elem_of_nil. Qed.

Lemma props_bounded_Unknown s : props_bounded s (Some Unknown).
Proof. by exists Unknown. Qed.

Lemma foldl_kcombine_Unknown_defined (l : list (option known)) :
  (forall x, x ∈ l -> x <> None) -> foldl kcombine (Some Unknown) l = Some Unknown.
Proof.
  induction l as [|[[]|] l IH]; simpl; intros H; try done;
    try (apply IH; intros y Hy; apply H; by right).
  exfalso. by apply (H None); [left|].
Qed.

Lemma foldl_kcombine_bounded s body (l : list (option known)) :
  (forall m, m ∈ body -> W (mem_ty m) < W s) ->
  (forall x, x ∈ l -> props_bounded s x) ->
  props_bounded s (foldl kcombine (Some (Known body)) l).
Proof.
  revert body. induction l as [|x l IH]; intros body Hb Hl; simpl.
  - exists (Known body). split; [done|]. by intros sp [= <-].
  - destruct (Hl x) as ([sp|] & -> & Hx); [by left| |]; simpl.
    + apply IH; [|intros y Hy; apply Hl; by right].
      intros m [Hm|Hm]%elem_of_app; [by apply Hb|by apply (Hx sp)].
    + rewrite foldl_kcombine_Unknown_defined; [by exists Unknown|].
      intros y Hy. destruct (Hl y) as (? & -> & _); [by right|done].
Qed.

Lemma props_of_bounded k s : W s < k -> props_bounded s (props_of E k s).
Proof.
  revert s. induction k as [|k IH]; intros s Hk; [lia|].
  destruct s; simpl; try apply props_bounded_nil; try apply props_bounded_Unknown.
  - exists (Known members). split; [done|]. intros sp [= <-] m Hm. by apply W_member.
  - destruct (E !! name) as [[h body| | |]|] eqn:Hn;
      try apply props_bounded_nil; try apply props_bounded_Unknown.
    apply foldl_kcombine_bounded; [intros m Hm; by apply (W_body name args h body)|].
    intros x Hx. destruct (list_elem_of_fmap_1 _ _ _ Hx) as (e & -> & He). pose proof (W_heritage name args h body e Hn He).
    destruct (IH e) as (kn & Hkn & Hb); [lia|]. exists kn. split; [done|].
    intros sp -> m Hm. specialize (Hb sp eq_refl m Hm). lia.
Qed.

(** One step answers when the recursive calls on lighter pairs do. *)
Section Step.
Variables (rec : ty -> ty -> option bool) (props : ty -> option known) (s t : ty).
Hypothesis Hrec : forall s' t', W s' + W t' < W s + W t -> rec s' t' <> None.
Hypothesis Hprops : props_bounded s (props s).

Lemma structural_defined body :
  (forall m, m ∈ body -> W (mem_ty m) < W t) -> structural rec props s body <> None.
Proof.
  intros Hb. unfold structural. destruct Hprops as ([sp|] & -> & Hsp); [|done].
  apply oall_defined. intros m Hm. destruct (assoc (mem_name m) sp) as [[o st]|] eqn:Ha; [|done].
  destruct (o && negb (mem_optional m)); [done|]. apply Hrec.
  apply assoc_Some in Ha. specialize (Hsp sp eq_refl _ Ha). specialize (Hb m Hm).
  unfold mem_ty in Hsp. simpl in Hsp. lia.
Qed.

Lemma via_heritage_defined : via_heritage E rec s t <> None.
Proof.
  apply oany_defined. intros e He. apply Hrec. unfold heritage_of in He.
  destruct s as [| | | | | | | | | | |m args]; try by apply elem_of_nil in He.
  destruct (E !! m) as [[h body| | |]|] eqn:Hm; try by apply elem_of_nil in He.
  pose proof (W_heritage m args h body e Hm He). lia.
Qed.

Lemma ref_step_defined n args : t = TRef n args -> ref_step E rec props s n args <> None.
Proof.
  intros Ht. unfold ref_step. destruct (E !! n) as [[h body|k| |]|] eqn:Hn; try done.
  - assert (oall (rec s) h &&? structural rec props s body <> None) as Hb.
    { apply oand_defined.
      - apply oall_defined. intros e He. apply Hrec. rewrite Ht.
        pose proof (W_heritage n args h body e Hn He). lia.
      - apply structural_defined. intros m Hm. rewrite Ht. by apply (W_body n args h body). }
    destruct s; try exact Hb. by destruct (String.eqb name n).
  - apply oor_defined; [|rewrite <- Ht; apply via_heritage_defined].
    unfold same_ref. destruct s as [| | | | | | | | | | |m args'] eqn:Hs; try done.
    destruct (String.eqb m n); [|done]. apply oall2_defined. intros x y Hx Hy. apply Hrec.
    rewrite Ht. pose proof (W_arg m args' x Hx). pose proof (W_arg n args y Hy). lia.
  - apply oor_defined; [done|rewrite <- Ht; apply via_heritage_defined].
Qed.

Lemma fun_step_defined ps r qs r' :
  s = TFun ps r -> t = TFun qs r' -> fun_step rec ps r qs r' <> None.
Proof.
  intros Hs Ht. unfold fun_step. apply oand_defined; [apply oand_defined; [done|]|].
  - apply oall_defined. intros [p q] [Hp Hq]%elem_of_zip.
    destruct (list_elem_of_fmap_1 _ _ _ Hp) as (x & -> & Hx).
    destruct (list_elem_of_fmap_1 _ _ _ Hq) as (y & -> & Hy).
    pose proof (W_param ps r x Hx). pose proof (W_param qs r' y Hy).
    apply oor_defined; apply Hrec; rewrite Hs, Ht; simpl; lia.
  - destruct (is_void r'); [done|]. apply Hrec. rewrite Hs, Ht.
    pose proof (W_ret ps r). pose proof (W_ret qs r'). lia.
Qed.
End Step.

Lemma assign_step_defined rec props s t :
  (forall s' t', W s' + W t' < W s + W t -> rec s' t' <> None) ->
  props_bounded s (props s) -> assign_step E rec props s t <> None.
Proof.
  intros Hrec Hprops. unfold assign_step. destruct (_ || _); [done|].
  destruct s, t; cbn iota beta;
    first [ done
          | apply oand_defined; apply Hrec; pose proof (W_union_l s1 s2);
            pose proof (W_union_r s1 s2); lia
          | apply oor_defined; apply Hrec; pose proof (W_union_l t1 t2);
            pose proof (W_union_r t1 t2); lia
          | by eapply fun_step_defined
          | eapply (structural_defined _ _ _ (TObj _)); [exact Hrec|exact Hprops|];
            intros m Hm; by apply W_member
          | by eapply ref_step_defined ].
Qed.

(** With fuel above the weights, the checker answers. *)
Theorem assignable_defined k s t : W s + W t < k -> assignable E k s t <> None.
Proof.
  revert s t. induction k as [|k IH]; intros s t Hk; [lia|].
  apply assign_step_defined.
  - intros s' t' Hlt. apply IH. lia.
  - apply props_of_bounded. pose proof (W_pos t). lia.
Qed.

Lemma literal_assignable_defined k lit t :
  W (literal_ty lit) + W t < k -> literal_assignable E k lit t <> None.
Proof.
  intros Hk. unfold literal_assignable.
  destruct (props_of_bounded k t) as (kn & -> & _); [pose proof (W_pos (literal_ty lit)); lia|].
  destruct (excess_ok lit kn); [by apply assignable_defined|done].
Qed.
End Defined.

(** ** A weight for ranked environments *)

(** The size of a type with the declarations of the interfaces it names
    expanded, [d] levels deep. *)
Fixpoint tw (E : tenv) (d : nat) : ty -> nat :=
  fix go (t : ty) : nat :=
    match t with
    | TUnion a b => S (go a + go b)
    | TFun ps r => S (sum_list_with (fun p => go p.2) ps + go r)
    | TObj ms => S (sum_list_with (fun m => go (mem_ty m)) ms)
    | TRef n args =>
        S (sum_list_with go args +
           match d with
           | O => 0
           | S d' =>
               match E !! n with
               | Some (DIface h body) =>
                   sum_list_with (tw E d') h + sum_list_with (fun m => tw E d' (mem_ty m)) body
               | _ => 0
               end
           end)
    | _ => 1
    end.

(** The expansion of a name, one level less deep. *)
Definition tw_exp (E : tenv) (d : nat) (n : string) : nat :=
  match d with
  | O => 0
  | S d' =>
      match E !! n with
      | Some (DIface h body) =>
          sum_list_with (tw E d') h + sum_list_with (fun m => tw E d' (mem_ty m)) body
      | _ => 0
      end
  end.

Lemma tw_unfold E d t :
  tw E d t =
  match t with
  | TUnion a b => S (tw E d a + tw E d b)
  | TFun ps r => S (sum_list_with (fun p => tw E d p.2) ps + tw E d r)
  | TObj ms => S (sum_list_with (fun m => tw E d (mem_ty m)) ms)
  | TRef n args => S (sum_list_with (tw E d) args + tw_exp E d n)
  | _ => 1
  end.
Proof. by destruct d, t. Qed.

Definition is_iface (E : tenv) (n : string) : bool :=
  match E !! n with Some (DIface _ _) => true | _ => false end.

(** The types an interface declaration mentions. *)
Definition iface_types (h : list ty) (body : list member) : list ty := h ++ (mem_ty <$> body).

(** [rk] ranks the interfaces of [E]: the interfaces an interface's
    declaration names have lower rank. *)
Definition ranked (E : tenv) (rk : string -> nat) : Prop :=
  forall n h body, E !! n = Some (DIface h body) ->
    forall e r, e ∈ iface_types h body -> r ∈ ty_refs e -> is_iface E r.1 = true -> rk r.1 < rk n.

(** Every interface [t] names has rank below [d]. *)
Definition below (E : tenv) (rk : string -> nat) (d : nat) (t : ty) : Prop :=
  forall r, r ∈ ty_refs t -> is_iface E r.1 = true -> rk r.1 < d.

Section Weight.
Variables (E : tenv) (rk : string -> nat).
Hypothesis Hrank : ranked E rk.

Lemma below_app d (l1 l2 : list (string * nat)) :
  (forall r, r ∈ l1 ++ l2 -> is_iface E r.1 = true -> rk r.1 < d) ->
  (forall r, r ∈ l1 -> is_iface E r.1 = true -> rk r.1 < d) /\
  (forall r, r ∈ l2 -> is_iface E r.1 = true -> rk r.1 < d).
Proof. intros H. split; intros r Hr; apply H, elem_of_app; auto. Qed.

Lemma below_flat_map {A} d (f : A -> list (string * nat)) l x :
  (forall r, r ∈ flat_map f l -> is_iface E r.1 = true -> rk r.1 < d) -> x ∈ l ->
  forall r, r ∈ f x -> is_iface E r.1 = true -> rk r.1 < d.
Proof.
  intros H Hx r Hr. apply H, list_elem_of_In, in_flat_map. exists x.
  split; by apply list_elem_of_In.
Qed.

Lemma tw_stable d : forall t d', below E rk d t -> d <= d' -> tw E d' t = tw E d t.
Proof.
  induction d as [d IHd] using lt_wf_ind.
  induction t as [| | | | | | | x | a b IHa IHb | ps r IHps IHr | ms IHms | n args IHargs]
    using ty_ind_nested; intros d' Hb Hle; unfold below in Hb; simpl in Hb;
    rewrite (tw_unfold E d'), (tw_unfold E d); try done.
  - apply below_app in Hb as [Ha Hb']. by rewrite IHa, IHb.
  - apply below_app in Hb as [Hps Hr]. rewrite IHr by done. f_equal. f_equal.
    apply sum_list_with_ext. intros p Hp. rewrite Forall_forall in IHps.
    apply IHps; [done| |done]. intros r' Hr'. by apply (below_flat_map d (fun p => ty_refs p.2) ps p).
  - f_equal. apply sum_list_with_ext. intros m Hm. rewrite Forall_forall in IHms.
    apply IHms; [done| |done]. intros r' Hr'. by apply (below_flat_map d (fun m => ty_refs (mem_ty m)) ms m).
  - rewrite Forall_forall in IHargs. f_equal. f_equal.
    + apply sum_list_with_ext. intros a Ha. apply IHargs; [done| |done].
      intros r' Hr'. apply (below_flat_map d ty_refs args a); [|done|done].
      intros r'' Hr''. apply Hb. by right.
    + unfold tw_exp.
      destruct (E !! n) as [[h body| | |]|] eqn:Hn; destruct d as [|d0], d' as [|d0']; try done; try lia.
      all: assert (is_iface E n = true) as Hi by (unfold is_iface; by rewrite Hn).
      all: pose proof (Hb (n, length args) ltac:(by left) Hi) as Hn'; simpl in Hn'.
      { lia. }
      assert (forall e, e ∈ iface_types h body -> tw E d0' e = tw E d0 e) as He.
      { intros e Hin. apply IHd; [lia| |lia]. intros r' Hr' Hi'.
        pose proof (Hrank n h body Hn e r' Hin Hr' Hi'). lia. }
      unfold iface_types in He. f_equal; apply sum_list_with_ext; intros x Hx; apply He.
      * apply elem_of_app. by left.
      * apply elem_of_app. right. by apply list_elem_of_fmap_2.
Qed.

Section Bound.
Variable R : nat.
Hypothesis Hbound : forall n, is_iface E n = true -> rk n <= R.

Lemma tw_iface_type n h body e :
  E !! n = Some (DIface h body) -> e ∈ iface_types h body -> tw E (S R) e = tw E R e.
Proof.
  intros Hn He. apply tw_stable; [|lia]. intros r Hr Hi.
  pose proof (Hrank n h body Hn e r He Hr Hi).
  assert (is_iface E n = true) as Hi' by (unfold is_iface; by rewrite Hn).
  pose proof (Hbound n Hi'). lia.
Qed.

Lemma tw_pos t : 0 < tw E (S R) t.
Proof. rewrite tw_unfold. destruct t; lia. Qed.

Lemma tw_part t t' :
  (exists a b, t = TUnion a b /\ (t' = a \/ t' = b)) \/
  (exists ps r, t = TFun ps r /\ (t' = r \/ exists p, p ∈ ps /\ t' = p.2)) \/
  (exists ms m, t = TObj ms /\ m ∈ ms /\ t' = mem_ty m) \/
  (exists n args, t = TRef n args /\ t' ∈ args) ->
  tw E (S R) t' < tw E (S R) t.
Proof.
  intros [(a & b & -> & [->| ->])|[(ps & r & -> & [->|(p & Hp & ->)])|
          [(ms & m & -> & Hm & ->)|(n & args & -> & Ha)]]];
    match goal with |- _ < tw E ?d ?t => rewrite (tw_unfold E d t) end; try lia.
  - pose proof (sum_list_with_elem_of (fun p => tw E (S R) p.2) ps p Hp). lia.
  - pose proof (sum_list_with_elem_of (fun m => tw E (S R) (mem_ty m)) ms m Hm). lia.
  - pose proof (sum_list_with_elem_of (tw E (S R)) args t' Ha). lia.
Qed.

Lemma tw_decl n args h body e :
  E !! n = Some (DIface h body) -> e ∈ iface_types h body ->
  tw E (S R) e < tw E (S R) (TRef n args).
Proof.
  intros Hn He. rewrite (tw_iface_type n h body e Hn He), (tw_unfold E _ (TRef _ _)).
  unfold tw_exp. rewrite Hn. unfold iface_types in He. apply elem_of_app in He as [He|He].
  - pose proof (sum_list_with_elem_of (tw E R) h e He). lia.
  - destruct (list_elem_of_fmap_1 _ _ _ He) as (m & -> & Hm).
    pose proof (sum_list_with_elem_of (fun m => tw E R (mem_ty m)) body m Hm). lia.
Qed.
End Bound.
End Weight.

(** ** The checker terminates on ranked environments *)

(** Discharge the laws of Section [Defined] for the weight [tw E (S R)]. *)
Ltac tw_laws E rk R Hr Hb :=
  first
  [ apply tw_pos
  | intros a b; apply tw_part; left; exists a, b; by split; [|left]
  | intros a b; apply tw_part; left; exists a, b; by split; [|right]
  | intros ps r p Hp; apply tw_part; right; left; exists ps, r; split; [done|right]; by exists p
  | intros ps r; apply tw_part; right; left; exists ps, r; by split; [|left]
  | intros ms m Hm; apply tw_part; right; right; left; by exists ms, m
  | intros n args a Ha; apply tw_part; right; right; right; by exists n, args
  | intros n args h body e Hn He; apply (tw_decl E rk Hr R Hb n args h body e Hn);
    apply elem_of_app; by left
  | intros n args h body m Hn Hm; apply (tw_decl E rk Hr R Hb n args h body _ Hn);
    apply elem_of_app; right; by apply list_elem_of_fmap_2 ].

(** In an environment whose interfaces are ranked, with ranks at most
    [R], the checker answers whenever its fuel exceeds the weights of the
    two types with their interfaces expanded [R + 1] levels deep. *)
Theorem assignable_terminates E rk R k s t :
  ranked E rk -> (forall n, is_iface E n = true -> rk n <= R) ->
  tw E (S R) s + tw E (S R) t < k -> assignable E k s t <> None.
Proof. intros Hr Hb. apply (assignable_defined E (tw E (S R))); tw_laws E rk R Hr Hb. Qed.

(** So does the check of a fresh literal. *)
Theorem literal_assignable_terminates E rk R k lit t :
  ranked E rk -> (forall n, is_iface E n = true -> rk n <= R) ->
  tw E (S R) (literal_ty lit) + tw E (S R) t < k -> literal_assignable E k lit t <> None.
Proof. intros Hr Hb. apply (literal_assignable_defined E (tw E (S R))); tw_laws E rk R Hr Hb. Qed.

(** An environment that declares no interface: the library environments
    of the development, whose types are opaque. *)
Definition decl_iface (d : decl) : bool := match d with DIface _ _ => true | _ => false end.
Definition no_ifaces (L : tenv) : Prop := map_Forall (fun _ d => decl_iface d = false) L.

Lemma no_ifaces_is_iface L n : no_ifaces L -> is_iface L n = false.
Proof.
  intros HL. unfold is_iface. destruct (L !! n) as [[]|] eqn:Hn; try done.
  by pose proof (HL n _ Hn).
Qed.
