(* ===== verification/TsScope.v ===== *)
(** * Names and scopes

    How a name written inside [declare module ReactDatetime { ... }] is
    resolved: a qualified name [A.B.C] is looked up by its first
    identifier [A] in the scope of the enclosing module, which holds the
    module's own declarations and its import aliases ([import React =
    __React]); a name the module does not declare is global.  Resolution
    renames every reference of a type ([TsType.ty_rename]). *)

From Stdlib Require Import Ascii.
From stdpp Require Import base list option strings.
From S2P Require Import Prelude TsType.

(** A scope maps the leading identifier of a name to what it stands for. *)
Abbreviation scope := (list (string * string)).

(** [split_dot "React.Component" = ("React", ".Component")]. *)
Fixpoint split_dot (s : string) : string * string :=
  match s with
  | EmptyString => (EmptyString, EmptyString)
  | String c s' =>
      if Ascii.eqb c "."%char then (EmptyString, s)
      else let '(h, r) := split_dot s' in (String c h, r)
  end.

Definition resolve_name (sc : scope) (n : string) : string :=
  let '(h, r) := split_dot n in
  match assoc h sc with
  | Some h' => String.append h' r
  | None => n
  end.

Definition resolve_ty (sc : scope) (t : ty) : ty := ty_rename (resolve_name sc) t.

Definition resolve_member (sc : scope) (m : member) : member :=
  (mem_name m, (mem_optional m, resolve_ty sc (mem_ty m))).

Definition resolve_decl (sc : scope) (d : decl) : decl :=
  match d with
  | DIface h body => DIface (resolve_ty sc <$> h) (resolve_member sc <$> body)
  | d => d
  end.

(** Splitting loses nothing: the head and the rest put back together are
    the name. *)
Lemma split_dot_app s : String.append (split_dot s).1 (split_dot s).2 = s.
Proof.
  induction s as [|c s IH]; simpl; [done|].
  destruct (Ascii.eqb c "."%char); [done|].
  destruct (split_dot s) as [h r]. simpl in *. by rewrite <- IH.
Qed.

(** A name whose head the scope does not bind is global: it is left as is. *)
Lemma resolve_name_global sc n :
  assoc (split_dot n).1 sc = None -> resolve_name sc n = n.
Proof.
  unfold resolve_name. destruct (split_dot n) as [h r]. simpl. by intros ->.
Qed.

(** An alias replaces the head and keeps the rest of the path. *)
Lemma resolve_name_alias sc n h' :
  assoc (split_dot n).1 sc = Some h' ->
  resolve_name sc n = String.append h' (split_dot n).2.
Proof.
  unfold resolve_name. destruct (split_dot n) as [h r]. simpl. by intros ->.
Qed.
