(* ===== verification/Library.v ===== *)
(** * The typings the declaration file refers to

    [src/react-datetime.d.ts] is written against declarations it does not
    contain: the global interfaces of the TypeScript library ([Date],
    [Object], [Function]), the old React typings, which declare the
    namespace [__React] ([import React = __React], line 12), and the
    moment.js typings, whose reference (line 9, [////], four slashes: an
    ordinary comment, not a reference directive) and import (line 13) are
    both commented out.  None of them is code of this repository: they are
    modelled here by name only, as [DOpaque] entries of the environment,
    and the React typings' one contract the file relies on
    ([React.ComponentClass<P>] constructs components whose [props] have
    type [P]) as [component_props]. *)

From stdpp Require Import base list option strings gmap.
From S2P Require Import Prelude TsType TsCheck.

(** Names of the React typings' namespace. *)
Definition react_Component : string := "__React.Component".
Definition react_ComponentClass : string := "__React.ComponentClass".
Definition react_ReactElement : string := "__React.ReactElement".

(** The global environment a consumer compiles against: the library
    interfaces and the React typings. *)
Definition lib_env : tenv :=
  list_to_map [("Date", DOpaque 0); ("Object", DObject); ("Function", DFunction);
               (react_Component, DOpaque 2); (react_ComponentClass, DOpaque 1);
               (react_ReactElement, DOpaque 1)].

(** The same with the moment.js typings loaded, which declare the
    namespace [moment] and its interface [moment.Moment]. *)
Definition moment_env : tenv := <["moment.Moment" := DOpaque 0]> lib_env.

(** The same typings with members: [Date] requires [getTime]
    (lib.d.ts), [moment.Moment] requires [format] and has no [getTime]
    (moment.d.ts), a React component requires [setState] and [render]
    and a React element [type] and [props] (react.d.ts); each interface
    is cut down to these members. *)
Definition member_env : tenv :=
  list_to_map [("Date", DIface [] [("getTime", (false, TFun [] TNumber))]);
               ("moment.Moment", DIface [] [("format", (false, TFun [] TString))]);
               ("Object", DObject); ("Function", DFunction);
               (react_Component, DIface [] [("setState", (false, TFun [("state", TAny)] TVoid));
                                           ("render", (false, TFun [] TAny))]);
               (react_ComponentClass, DOpaque 1);
               (react_ReactElement, DIface [] [("type", (false, TAny)); ("props", (false, TAny))])].

(** ** The React contract

    The props type of a component class: [React.ComponentClass<P>] has the
    construct signature [new (props?: P, context?: any)] and its instances
    a [props: P] member, so JSX attributes and the second argument of
    [React.createElement] are checked against [P].  An interface that
    extends a component class inherits it. *)
Fixpoint component_props (E : tenv) (fuel : nat) (t : ty) : option ty :=
  match fuel with
  | O => None
  | S f =>
      match t with
      | TRef n [p] => if String.eqb n react_ComponentClass then Some p else None
      | TRef n [] =>
          match E !! n with
          | Some (DIface h _) => head (omap (component_props E f) h)
          | _ => None
          end
      | _ => None
      end
  end.
