(* ===== verification/Jsx.v ===== *)
(** * JSX elements, as TypeScript 1.8 checks them

    [<C a={e} {...o} />] is not checked as one object literal: the
    compiler ([checkJsxOpeningLikeElement] of TypeScript 1.8) walks the
    attributes from right to left with a table of the names already set.
    - An attribute [a={e}] ([checkJsxAttribute]) must name a property of
      the props type unless its name contains a hyphen ([data-*],
      [aria-*]); the type of [e] must be assignable to that property's;
      an attribute without a value stands for [true].
    - A spread [{...o}] ([checkJsxSpreadAttribute]) checks each property
      of [o]'s type not already set to its right against the property of
      the same name, if the props type has one; other properties are not
      errors.  Spreading [any] counts as setting every property.
    - Finally every required property of the props type must be set.
    Before these, the grammar check ([checkGrammarJsxElement]) rejects an
    element that repeats an attribute name (error 17001, "JSX elements
    cannot have multiple attributes with the same name"); spreads are not
    counted.  The verdict is the conjunction of these checks. *)

From Stdlib Require Import Ascii.
From stdpp Require Import base list option strings gmap.
From S2P Require Import Prelude TsType TsCheck Library.

Inductive jsx_attr : Type :=
| JsxAttribute (name : string) (t : ty)
| JsxSpreadAttribute (t : ty).

Fixpoint has_hyphen (s : string) : bool :=
  match s with
  | EmptyString => false
  | String c s' => Ascii.eqb c "-"%char || has_hyphen s'
  end.

Definition isUnhyphenatedJsxName (n : string) : bool := negb (has_hyphen n).

(** The names set so far, whether [any] was spread, and the verdict. *)
Record jsx_state := JsxState {
  name_table : list string;
  saw_spread_any : bool;
  verdict : option bool
}.

(** The names of the attributes written [n={e}], spreads left out. *)
Definition jsx_attribute_names (attrs : list jsx_attr) : list string :=
  omap (fun a => match a with JsxAttribute n _ => Some n | JsxSpreadAttribute _ => None end) attrs.

Section Jsx.
Variables (E : tenv) (fuel : nat) (tp : list member).

Definition checkJsxAttribute (s : jsx_state) (n : string) (t : ty) : jsx_state :=
  match assoc n tp with
  | Some (_, T) => JsxState (n :: name_table s) (saw_spread_any s) (verdict s &&? assignable E fuel t T)
  | None =>
      if isUnhyphenatedJsxName n
      then JsxState (name_table s) (saw_spread_any s) (verdict s &&? Some false)
      else JsxState (n :: name_table s) (saw_spread_any s) (verdict s)
  end.

Definition check_spread_prop (s : jsx_state) (p : member) : jsx_state :=
  if bool_decide (mem_name p ∈ name_table s) then s
  else JsxState (mem_name p :: name_table s) (saw_spread_any s)
         (verdict s &&? match assoc (mem_name p) tp with
                        | Some (_, T) => assignable E fuel (mem_ty p) T
                        | None => Some true
                        end).

(** The properties of a spread whose type is not modelled are not known:
    no verdict. *)
Definition checkJsxSpreadAttribute (s : jsx_state) (t : ty) : jsx_state :=
  if is_any t || is_error_ref E t then JsxState (name_table s) true (verdict s)
  else match props_of E fuel t with
       | Some (Known sp) => foldl check_spread_prop s sp
       | _ => JsxState (name_table s) (saw_spread_any s) (verdict s &&? None)
       end.

Definition check_jsx_attr (s : jsx_state) (a : jsx_attr) : jsx_state :=
  match a with
  | JsxAttribute n t => checkJsxAttribute s n t
  | JsxSpreadAttribute t => checkJsxSpreadAttribute s t
  end.

Definition jsx_attrs_ok (attrs : list jsx_attr) : option bool :=
  let s := foldl check_jsx_attr (JsxState [] false (Some true)) (reverse attrs) in
  obool (bool_decide (NoDup (jsx_attribute_names attrs))) &&?
  verdict s &&?
  (if saw_spread_any s then Some true
   else obool (forallb (fun m => mem_optional m || bool_decide (mem_name m ∈ name_table s)) tp)).
End Jsx.

(** The element: its attributes against the props type of [C], whose
    properties are [props_of]; a props type [any] accepts everything, and
    a [C] that is not a component class is an error. *)
Definition jsx_element_ok (E : tenv) (fuel : nat) (C : ty) (attrs : list jsx_attr)
    : option bool :=
  match component_props E fuel C with
  | Some P =>
      if is_any P || is_error_ref E P then Some true
      else match props_of E fuel P with
           | Some (Known tp) => jsx_attrs_ok E fuel tp attrs
           | _ => None
           end
  | None => Some false
  end.

(** Attributes written without spreads. *)
Definition jsx_plain (lit : list (string * ty)) : list jsx_attr :=
  (fun p => JsxAttribute p.1 p.2) <$> lit.

(** ** The verdict on attributes against an all-optional props type *)

Section Verdicts.
Variables (E : tenv) (fuel : nat) (tp : list member).
Hypothesis Hopt : Forall (fun m => mem_optional m = true) tp.

(** One attribute, on its own. *)
Definition attribute_verdict (p : string * ty) : option bool :=
  match assoc p.1 tp with
  | Some (_, T) => assignable E fuel p.2 T
  | None => if isUnhyphenatedJsxName p.1 then Some false else Some true
  end.

(** One property of a spread, on its own. *)
Definition spread_verdict (m : member) : option bool :=
  match assoc (mem_name m) tp with
  | Some (_, T) => assignable E fuel (mem_ty m) T
  | None => Some true
  end.

Lemma required_set (names : list string) :
  forallb (fun m => mem_optional m || bool_decide (mem_name m ∈ names)) tp = true.
Proof.
  apply forallb_forall. intros m Hm. apply list_elem_of_In in Hm.
  rewrite Forall_forall in Hopt. by rewrite (Hopt m Hm).
Qed.

Lemma check_attribute_verdict s n t :
  verdict (checkJsxAttribute E fuel tp s n t) = verdict s &&? attribute_verdict (n, t) /\
  saw_spread_any (checkJsxAttribute E fuel tp s n t) = saw_spread_any s.
Proof.
  unfold checkJsxAttribute, attribute_verdict. simpl.
  destruct (assoc n tp) as [[? T]|]; [done|].
  destruct (isUnhyphenatedJsxName n); simpl; [done|]. by rewrite oand_true_r.
Qed.

Lemma foldl_plain s lit :
  verdict (foldl (check_jsx_attr E fuel tp) s (jsx_plain lit)) =
    verdict s &&? oall attribute_verdict lit /\
  saw_spread_any (foldl (check_jsx_attr E fuel tp) s (jsx_plain lit)) = saw_spread_any s.
Proof.
  revert s. induction lit as [|[n t] lit IH]; intros s; simpl; [by rewrite oand_true_r|].
  destruct (IH (checkJsxAttribute E fuel tp s n t)) as [-> ->].
  destruct (check_attribute_verdict s n t) as [-> ->]. by rewrite oand_assoc.
Qed.

Lemma jsx_attribute_names_plain lit : jsx_attribute_names (jsx_plain lit) = lit.*1.
Proof. induction lit as [|[n t] lit IH]; simpl; [done|]. by rewrite IH. Qed.

(** Without spreads, the names must be distinct and each attribute is
    checked on its own. *)
Theorem jsx_plain_verdict lit :
  jsx_attrs_ok E fuel tp (jsx_plain lit) =
  obool (bool_decide (NoDup lit.*1)) &&? oall attribute_verdict (reverse lit).
Proof.
  unfold jsx_attrs_ok. rewrite jsx_attribute_names_plain.
  replace (reverse (jsx_plain lit)) with (jsx_plain (reverse lit)) by apply fmap_reverse.
  destruct (foldl_plain (JsxState [] false (Some true)) (reverse lit)) as [-> ->].
  cbn [verdict saw_spread_any]. rewrite required_set, oand_true_l. by rewrite oand_true_r.
Qed.

Lemma check_spread_fresh s m :
  mem_name m ∉ name_table s ->
  check_spread_prop E fuel tp s m =
  JsxState (mem_name m :: name_table s) (saw_spread_any s) (verdict s &&? spread_verdict m).
Proof. intros Hm. unfold check_spread_prop. by rewrite bool_decide_false. Qed.

Lemma foldl_spread s ms :
  NoDup ms.*1 -> Forall (fun m => mem_name m ∉ name_table s) ms ->
  verdict (foldl (check_spread_prop E fuel tp) s ms) = verdict s &&? oall spread_verdict ms /\
  saw_spread_any (foldl (check_spread_prop E fuel tp) s ms) = saw_spread_any s.
Proof.
  revert s. induction ms as [|m ms IH]; intros s Hnd Hfresh; simpl; [by rewrite oand_true_r|].
  inversion Hnd as [|? ? Hm Hnd']; subst. inversion Hfresh as [|? ? Hm' Hfresh']; subst.
  rewrite check_spread_fresh by done.
  destruct (IH (JsxState (mem_name m :: name_table s) (saw_spread_any s)
                  (verdict s &&? spread_verdict m))) as [-> ->]; [done| |].
  - apply Forall_forall. intros m' Hin. rewrite Forall_forall in Hfresh'.
    simpl. intros [Heq|Hin']%elem_of_cons; [|by apply (Hfresh' m')].
    apply Hm. unfold mem_name in Heq. rewrite <- Heq. by apply list_elem_of_fmap_2.
  - simpl. by rewrite oand_assoc.
Qed.

(** A spread of an object type with distinct property names, on its
    own: each property the props type declares is checked, the others
    are ignored. *)
Theorem jsx_spread_verdict ms :
  fuel <> 0 -> NoDup ms.*1 ->
  jsx_attrs_ok E fuel tp [JsxSpreadAttribute (TObj ms)] = oall spread_verdict ms.
Proof.
  intros Hf Hnd. unfold jsx_attrs_ok. simpl. unfold checkJsxSpreadAttribute. simpl.
  assert (props_of E fuel (TObj ms) = Some (Known ms)) as -> by (destruct fuel; [lia|done]).
  destruct (foldl_spread (JsxState [] false (Some true)) ms Hnd) as [-> ->].
  - apply Forall_forall. intros m _. simpl. apply not_elem_of_nil.
  - cbn [verdict saw_spread_any]. rewrite required_set, oand_true_l, oand_true_r.
    apply oand_true_l.
Qed.

(** An attribute hides the property of the same name of a spread to its
    left, not of one to its right: the attributes are checked from the
    last one back. *)
Theorem jsx_spread_attribute_order k o T t1 t2 :
  fuel <> 0 -> assoc k tp = Some (o, T) ->
  jsx_attrs_ok E fuel tp [JsxSpreadAttribute (TObj [req k t1]); JsxAttribute k t2] =
    assignable E fuel t2 T /\
  jsx_attrs_ok E fuel tp [JsxAttribute k t2; JsxSpreadAttribute (TObj [req k t1])] =
    assignable E fuel t1 T &&? assignable E fuel t2 T.
Proof.
  intros Hf Hk.
  assert (props_of E fuel (TObj [req k t1]) = Some (Known [req k t1])) as Hp
    by (destruct fuel; [lia|done]).
  unfold jsx_attrs_ok. rewrite !reverse_cons, reverse_nil. cbn [app foldl check_jsx_attr].
  unfold checkJsxSpreadAttribute, checkJsxAttribute. rewrite Hk. cbn [is_any is_error_ref orb].
  rewrite !Hp. cbn [foldl]. unfold check_spread_prop. cbn [name_table saw_spread_any verdict].
  change (mem_name (req k t1)) with k. change (mem_ty (req k t1)) with t1.
  rewrite (bool_decide_false (k ∈ [])) by apply not_elem_of_nil.
  rewrite (bool_decide_true (k ∈ [k])) by by apply list_elem_of_singleton.
  cbn [jsx_attribute_names omap name_table saw_spread_any verdict].
  rewrite Hk, bool_decide_true by apply NoDup_singleton. rewrite !required_set.
  unfold obool. rewrite !oand_true_l, !oand_true_r. done.
Qed.
End Verdicts.

(** ** An undeclared attribute is an error, whatever the others *)

Section Undeclared.
Variables (E : tenv) (fuel : nat) (tp : list member).

Lemma check_jsx_attr_false s a :
  verdict s = Some false -> verdict (check_jsx_attr E fuel tp s a) = Some false.
Proof.
  intros Hs. destruct a as [n t|t]; simpl.
  - unfold checkJsxAttribute. destruct (assoc n tp) as [[]|]; simpl; rewrite ?Hs; [done|].
    by destruct (isUnhyphenatedJsxName n).
  - unfold checkJsxSpreadAttribute. destruct (_ || _); [done|].
    destruct (props_of E fuel t) as [[sp|]|]; simpl; rewrite ?Hs; try done.
    revert s Hs. induction sp as [|m sp IH]; intros s Hs; simpl; [done|].
    apply IH. unfold check_spread_prop. case_bool_decide; [done|]. simpl. by rewrite Hs.
Qed.

Lemma foldl_jsx_false s l :
  verdict s = Some false -> verdict (foldl (check_jsx_attr E fuel tp) s l) = Some false.
Proof.
  revert s. induction l as [|a l IH]; intros s Hs; simpl; [done|].
  by apply IH, check_jsx_attr_false.
Qed.

Theorem jsx_undeclared_false attrs n t :
  JsxAttribute n t ∈ attrs -> assoc n tp = None -> isUnhyphenatedJsxName n = true ->
  jsx_attrs_ok E fuel tp attrs = Some false.
Proof.
  intros Ha Hn Hu.
  assert (verdict (foldl (check_jsx_attr E fuel tp) (JsxState [] false (Some true)) (reverse attrs))
          = Some false) as Hv.
  { apply elem_of_reverse, list_elem_of_split in Ha as (l1 & l2 & ->).
    rewrite foldl_app. simpl. apply foldl_jsx_false.
    unfold checkJsxAttribute. rewrite Hn, Hu. simpl. apply oand_false. by right. }
  unfold jsx_attrs_ok. by rewrite Hv, oand_false_r.
Qed.
End Undeclared.
