(* ===== verification/Datetime.v ===== *)
(** * The declaration file [src/react-datetime.d.ts]

    Module [ReactDatetime] is the ambient module of the same name (lines
    11-193): its import alias, one definition per member of the interface
    [DatetimepickerProps] (lines 15-189), with the type the source writes
    and its optional flag, the interface itself, and [DatetimeComponent]
    (lines 191-192).  Module [ReactDatetimeExport] is the ambient external
    module ['react-datetime'] (lines 195-198) and its [export =].  Types are
    written as the source writes them, with the names as spelled in the
    source ([React.Component], [Moment]); [ReactDatetime.scope] and
    [TsScope.resolve_ty] turn them into the names of the environment. *)

From stdpp Require Import base list option strings gmap.
From S2P Require Import Prelude TsType TsCheck TsScope Library.

Module ReactDatetime.

(** [import React = __React;] *)
Definition React : string * string := ("React", "__React").

(** [value?: Date] *)
Definition value : member := opt "value" (TRef "Date" []).
(** [initialValue?: Date] *)
Definition initialValue : member := opt "initialValue" (TRef "Date" []).
(** [initialViewDate?: Date] *)
Definition initialViewDate : member := opt "initialViewDate" (TRef "Date" []).
(** [initialViewMode?: string] *)
Definition initialViewMode : member := opt "initialViewMode" TString.
(** [updateOnView?: string] *)
Definition updateOnView : member := opt "updateOnView" TString.
(** [dateFormat?: boolean|string] *)
Definition dateFormat : member := opt "dateFormat" (TUnion TBoolean TString).
(** [timeFormat?: boolean|string] *)
Definition timeFormat : member := opt "timeFormat" (TUnion TBoolean TString).
(** [input?: boolean] *)
Definition input : member := opt "input" TBoolean.
(** [open?: boolean] *)
Definition open : member := opt "open" TBoolean.
(** [locale?: string] *)
Definition locale : member := opt "locale" TString.
(** [utc?: boolean] *)
Definition utc : member := opt "utc" TBoolean.
(** [displayTimeZone?: string] *)
Definition displayTimeZone : member := opt "displayTimeZone" TString.
(** [onChange?: (momentOrInputString: string|any) => void] *)
Definition onChange : member :=
  opt "onChange" (TFun [("momentOrInputString", TUnion TString TAny)] TVoid).
(** [onOpen?: () => void] *)
Definition onOpen : member := opt "onOpen" (TFun [] TVoid).
(** [onClose?: (momentOrInputString : string|any) => void] *)
Definition onClose : member :=
  opt "onClose" (TFun [("momentOrInputString", TUnion TString TAny)] TVoid).
(** [onNavigate?: (viewMode: string) => void] *)
Definition onNavigate : member := opt "onNavigate" (TFun [("viewMode", TString)] TVoid).
(** [onBeforeNavigate?: (nextView: string, currentView: string,
    viewDate: Moment) => string] *)
Definition onBeforeNavigate : member :=
  opt "onBeforeNavigate"
    (TFun [("nextView", TString); ("currentView", TString);
           ("viewDate", TRef "Moment" [])] TString).
(** [onNavigateBack?: (amount: number, type: string) => void] *)
Definition onNavigateBack : member :=
  opt "onNavigateBack" (TFun [("amount", TNumber); ("type", TString)] TVoid).
(** [onNavigateForward?: (amount: number, type: string) => void] *)
Definition onNavigateForward : member :=
  opt "onNavigateForward" (TFun [("amount", TNumber); ("type", TString)] TVoid).
(** [className?: string] *)
Definition className : member := opt "className" TString.
(** [inputProps?: Object] *)
Definition inputProps : member := opt "inputProps" (TRef "Object" []).

(** [React.Component<any, any>], the return type of the render hooks. *)
Definition component_any : ty := TRef "React.Component" [TAny; TAny].

(** [renderView?: (viewMode: string, renderCalendar: Function) =>
    React.Component<any, any>] *)
Definition renderView : member :=
  opt "renderView"
    (TFun [("viewMode", TString); ("renderCalendar", TRef "Function" [])] component_any).
(** [renderInput?: (props: Object, openCalendar: Function,
    closeCalendar: Function) => React.Component<any, any>] *)
Definition renderInput : member :=
  opt "renderInput"
    (TFun [("props", TRef "Object" []); ("openCalendar", TRef "Function" []);
           ("closeCalendar", TRef "Function" [])] component_any).
(** [isValidDate?: (currentDate: any, selectedDate: any) => boolean] *)
Definition isValidDate : member :=
  opt "isValidDate" (TFun [("currentDate", TAny); ("selectedDate", TAny)] TBoolean).
(** [renderDay?: (props: any, currentDate: any, selectedDate: any) =>
    React.Component<any, any>] *)
Definition renderDay : member :=
  opt "renderDay"
    (TFun [("props", TAny); ("currentDate", TAny); ("selectedDate", TAny)] component_any).
(** [renderMonth?: (props: any, month: number, year: number,
    selectedDate: any) => React.Component<any, any>] *)
Definition renderMonth : member :=
  opt "renderMonth"
    (TFun [("props", TAny); ("month", TNumber); ("year", TNumber);
           ("selectedDate", TAny)] component_any).
(** [renderYear?: (props: any, year: number, selectedDate: any) =>
    React.Component<any, any>] *)
Definition renderYear : member :=
  opt "renderYear"
    (TFun [("props", TAny); ("year", TNumber); ("selectedDate", TAny)] component_any).
(** [strictParsing?: boolean] *)
Definition strictParsing : member := opt "strictParsing" TBoolean.
(** [closeOnTab?: boolean] *)
Definition closeOnTab : member := opt "closeOnTab" TBoolean.
(** [closeOnSelect?: boolean] *)
Definition closeOnSelect : member := opt "closeOnSelect" TBoolean.
(** [timeConstraints?: Object] *)
Definition timeConstraints : member := opt "timeConstraints" (TRef "Object" []).
(** [closeOnClickOutside?: boolean] *)
Definition closeOnClickOutside : member := opt "closeOnClickOutside" TBoolean.

(** [export interface DatetimepickerProps { ... }], its members in
    source order. *)
Definition DatetimepickerProps : list member :=
  [value; initialValue; initialViewDate; initialViewMode; updateOnView;
   dateFormat; timeFormat; input; open; locale; utc; displayTimeZone;
   onChange; onOpen; onClose; onNavigate; onBeforeNavigate; onNavigateBack;
   onNavigateForward; className; inputProps; renderView; renderInput;
   isValidDate; renderDay; renderMonth; renderYear; strictParsing;
   closeOnTab; closeOnSelect; timeConstraints; closeOnClickOutside].

(** [interface DatetimeComponent extends
    React.ComponentClass<DatetimepickerProps> { }] *)
Definition DatetimeComponent : decl :=
  DIface [TRef "React.ComponentClass" [TRef "DatetimepickerProps" []]] [].

(** The scope of the module body: the import alias and the module's own
    declarations, which resolve to their qualified names. *)
Definition scope : scope :=
  [React;
   ("DatetimepickerProps", "ReactDatetime.DatetimepickerProps");
   ("DatetimeComponent", "ReactDatetime.DatetimeComponent")].

(** What the module declares, under its qualified names, with every
    reference resolved in [scope]. *)
Definition decls : list (string * decl) :=
  [("ReactDatetime.DatetimepickerProps",
     resolve_decl scope (DIface [] DatetimepickerProps));
   ("ReactDatetime.DatetimeComponent", resolve_decl scope DatetimeComponent)].
End ReactDatetime.

Module ReactDatetimeExport.
(** [var DateTime: ReactDatetime.DatetimeComponent;] *)
Definition DateTime : ty := TRef "ReactDatetime.DatetimeComponent" [].

(** [export = DateTime;]: the type a consumer's [import DateTime =
    require('react-datetime')] receives. *)
Definition export : ty := DateTime.
End ReactDatetimeExport.

(** The environment a consumer of the typings compiles in: the file's
    declarations added to a library environment [L]. *)
Definition program_env (L : tenv) : tenv := list_to_map ReactDatetime.decls ∪ L.

(** The props interface as a type, and its members after resolution. *)
Definition Props : ty := TRef "ReactDatetime.DatetimepickerProps" [].
Definition props_members : list member :=
  resolve_member ReactDatetime.scope <$> ReactDatetime.DatetimepickerProps.

(** The types a declaration mentions: what it extends and its members'. *)
Definition decl_types (d : decl) : list ty :=
  match d with
  | DIface h body => h ++ map mem_ty body
  | _ => []
  end.

(** Every reference the file's declarations make, in source order: what
    the declarations extend and their members' types, then the type of
    the export. *)
Definition file_refs : list (string * nat) :=
  flat_map (fun nd => flat_map ty_refs (decl_types nd.2)) ReactDatetime.decls ++
  ty_refs ReactDatetimeExport.export.

(** The references of the file that [program_env L] does not resolve: the
    errors the compiler reports when it checks the declaration file. *)
Definition decl_errors (L : tenv) : list (string * nat) :=
  filter (fun r => ref_resolved (program_env L) r = false) file_refs.
