(* ===== verification/DatetimeEnv.v ===== *)
(** * The declarations of [src/react-datetime.d.ts] in a consumer's environment

    Where the file's declarations sit in [program_env L], stated so that
    they hold whatever the declarations contain: the lookups of the two
    interfaces, of every other name, and the tactics that rewrite them.
    Facts about what the declarations contain are in [DatetimeFacts]. *)

From stdpp Require Import base list option strings gmap.
From S2P Require Import Prelude TsType TsCheck TsScope Library Datetime.

Create HintDb datetime discriminated.

(** The file's own declarations shadow nothing and are found first. *)
Lemma program_env_Props L :
  program_env L !! "ReactDatetime.DatetimepickerProps" = Some (DIface [] props_members).
Proof. unfold program_env. apply lookup_union_Some_l. by vm_compute. Qed.

Lemma program_env_Component L :
  program_env L !! "ReactDatetime.DatetimeComponent"
  = Some (resolve_decl ReactDatetime.scope ReactDatetime.DatetimeComponent).
Proof. unfold program_env. apply lookup_union_Some_l. by vm_compute. Qed.

(** Every other name is looked up in the library environment. *)
Lemma program_env_global L k :
  k <> "ReactDatetime.DatetimepickerProps" -> k <> "ReactDatetime.DatetimeComponent" ->
  program_env L !! k = L !! k.
Proof.
  intros H1 H2. unfold program_env. apply lookup_union_r.
  apply not_elem_of_list_to_map_1. simpl. set_solver.
Qed.

#[export] Hint Resolve program_env_Props : datetime.

(** Lookups in a consumer's environment are rewritten by [genv], never
    unfolded. *)
Arguments program_env : simpl never.

Ltac genv :=
  repeat match goal with
  | |- context [program_env ?L !! ?k] =>
      first [ rewrite (program_env_Props L) | rewrite (program_env_Component L)
            | rewrite (program_env_global L k) by discriminate ]
  end.

(** Decide a closed proposition about the declarations by evaluation. *)
Ltac decide_closed := apply (bool_decide_unpack _); vm_compute; reflexivity.
