(* ===== verification/DatetimeProps.v ===== *)
(** * Which attributes the props interface accepts

    Theorems about [DatetimepickerProps] (lines 15-189 of
    [src/react-datetime.d.ts]) as the type a consumer's props are checked
    against: the exact set of fresh attribute lists it accepts, the
    rejection of undeclared attributes, the acceptance of every subset of
    the declared options, and the non-fresh values the all-optional
    interface lets through. *)

From stdpp Require Import base list option strings gmap.
From S2P Require Import Prelude TsType TsCheck TsScope Library Datetime DatetimeEnv.

(** C2: an attribute whose name is not a declared option is rejected,
    whatever the other attributes and whatever the fuel. *)
Theorem props_excess_rejected L f lit p :
  p ∈ lit -> p.1 ∉ props_members.*1 ->
  literal_assignable (program_env L) (S f) lit Props = Some false.
Proof.
  intros Hp Hnot.
  assert (Hne : props_members <> []) by (by vm_compute).
  exact (literal_iface_excess _ _ _ (program_env_Props L) Hne f lit p Hp Hnot).
Qed.

Lemma props_excess_rejected_witness :
  ("onSelect", TFun [] TVoid) ∈ [("value", TRef "Date" []); ("onSelect", TFun [] TVoid)] /\
  ("onSelect" ∉ props_members.*1) /\
  literal_assignable (program_env lib_env) 4
    [("value", TRef "Date" []); ("onSelect", TFun [] TVoid)] Props = Some false.
Proof.
  assert (Hin : ("onSelect", TFun [] TVoid)
                ∈ [("value", TRef "Date" []); ("onSelect", TFun [] TVoid)])
    by (right; left).
  assert (Hnot : "onSelect" ∉ props_members.*1)
    by (decide_closed).
  split; [exact Hin|split; [exact Hnot|]].
  exact (props_excess_rejected lib_env 3 _ _ Hin Hnot).
Defined.

(** C1: a fresh attribute list with distinct names type-checks against
    the props interface exactly when each attribute is a declared option
    and its type is assignable to the option's declared type; no option is
    required. *)
Theorem props_literal_accepted_iff L f lit :
  NoDup lit.*1 ->
  literal_assignable (program_env L) (S (S f)) lit Props = Some true <->
  Forall (fun p => exists t, assoc p.1 props_members = Some (true, t) /\
                             assignable (program_env L) (S f) p.2 t = Some true) lit.
Proof. apply literal_iface_true; [auto with datetime|decide_closed..|by vm_compute]. Qed.

Lemma props_literal_accepted_iff_witness :
  NoDup ([("value", TRef "Date" []); ("utc", TBoolean)] : list (string * ty)).*1 /\
  (literal_assignable (program_env lib_env) 4
     [("value", TRef "Date" []); ("utc", TBoolean)] Props = Some true <->
   Forall (fun p : string * ty => exists t, assoc p.1 props_members = Some (true, t) /\
             assignable (program_env lib_env) 3 p.2 t = Some true)
     [("value", TRef "Date" []); ("utc", TBoolean)]).
Proof.
  split; [decide_closed|].
  apply (props_literal_accepted_iff lib_env 2). apply (bool_decide_unpack _). by vm_compute.
Defined.

(** C21: the props interface has only optional members, so any primitive
    value, and any object none of whose properties it declares, is
    assignable to it when it is not a fresh literal: the excess-property
    check of [C2] only guards attributes written at the use site. *)
Theorem props_weak_type L f ms :
  Forall (fun n => n ∉ props_members.*1) ms.*1 ->
  assignable (program_env L) (S (S f)) (TObj ms) Props = Some true /\
  assignable (program_env L) (S (S f)) TNumber Props = Some true /\
  assignable (program_env L) (S (S f)) TString Props = Some true /\
  assignable (program_env L) (S (S f)) TBoolean Props = Some true.
Proof.
  intros Hdis. repeat split; cbn [assignable]; unfold assign_step; simpl;
    rewrite program_env_Props; simpl; unfold ref_step; rewrite program_env_Props;
    simpl; try reflexivity; try (apply conforms_disjoint; decide_closed).
  unfold structural. simpl. rewrite conforms_disjoint; [done|decide_closed|exact Hdis].
Qed.

Lemma props_weak_type_witness :
  Forall (fun n => n ∉ props_members.*1) (([req "onSelect" (TFun [] TVoid)] : list member).*1) /\
  assignable (program_env lib_env) 2 (TObj [req "onSelect" (TFun [] TVoid)]) Props = Some true /\
  assignable (program_env lib_env) 2 TNumber Props = Some true /\
  assignable (program_env lib_env) 2 TString Props = Some true /\
  assignable (program_env lib_env) 2 TBoolean Props = Some true.
Proof.
  assert (Hdis : Forall (fun n => n ∉ props_members.*1)
                   (([req "onSelect" (TFun [] TVoid)] : list member).*1)) by decide_closed.
  split; [exact Hdis|]. exact (props_weak_type lib_env 0 _ Hdis).
Defined.
