(* ===== verification/DatetimeModule.v ===== *)
(** * The module and its export

    Theorems about the declaration file as a whole: which of its references a
    consumer's environment leaves unresolved (the compiler errors of the
    file), and what the [export =] of module ['react-datetime'] (lines
    195-198) gives a consumer: a component class whose JSX attributes are
    checked against [DatetimepickerProps]. *)

From stdpp Require Import base list option strings gmap.
From S2P Require Import Prelude TsType TsCheck TsScope Library Jsx Datetime DatetimeEnv.

(** A name of the library environment keeps its arity in any larger
    environment. *)
Lemma lib_resolved L k d :
  lib_env ⊆ L -> lib_env !! k = Some d ->
  k <> "ReactDatetime.DatetimepickerProps" -> k <> "ReactDatetime.DatetimeComponent" ->
  ref_resolved (program_env L) (k, decl_arity d) = true.
Proof.
  intros Hsub Hk H1 H2. unfold ref_resolved. simpl. rewrite program_env_global by done.
  rewrite (lookup_weaken lib_env L k d Hk Hsub). apply Nat.eqb_refl.
Qed.

(** Side conditions of [lib_resolved] at a concrete name. *)
Ltac solve_side := first [ assumption | reflexivity | discriminate ].

(** C10: [Moment] (line 109) is the one reference of the file that the
    library environment does not declare: the reference comment of line
    9 has four slashes and the import of line 13 is commented out, and the
    moment.js typings declare [moment.Moment], not a global [Moment].  In
    every environment extending the library's, the file's only error is
    [Moment], unless the environment declares a global [Moment]. *)
Theorem moment_unresolved L :
  lib_env ⊆ L ->
  decl_errors L = if ref_resolved (program_env L) ("Moment", 0) then [] else [("Moment", 0)].
Proof.
  intros Hsub. unfold decl_errors.
  rewrite (filter_only _ ("Moment", 0)).
  - change (filter _ file_refs) with [("Moment", 0)].
    rewrite filter_cons, filter_nil.
    by destruct (ref_resolved (program_env L) ("Moment", 0)).
  - let v := eval vm_compute in file_refs in change file_refs with v.
    repeat (rewrite Forall_cons; split); [..|by apply Forall_nil];
      first [ left; reflexivity | right ];
      first [ unfold ref_resolved; simpl; genv; reflexivity
            | apply (lib_resolved L _ (DOpaque 0)); solve_side
            | apply (lib_resolved L _ (DOpaque 1)); solve_side
            | apply (lib_resolved L _ (DOpaque 2)); solve_side
            | apply (lib_resolved L _ DObject); solve_side
            | apply (lib_resolved L _ DFunction); solve_side ].
Qed.

Lemma moment_unresolved_witness :
  lib_env ⊆ moment_env /\ decl_errors moment_env = [("Moment", 0)].
Proof.
  assert (H : lib_env ⊆ moment_env) by (apply insert_subseteq; reflexivity).
  split; [exact H|]. rewrite (moment_unresolved moment_env H). reflexivity.
Defined.


(** The exported component's props type is the props interface. *)
Lemma component_props_export L f :
  component_props (program_env L) (S (S f)) ReactDatetimeExport.export = Some Props.
Proof. simpl. rewrite program_env_Component. reflexivity. Qed.

