(* ===== verification/DatetimeFacts.v ===== *)
(** * Facts about the declarations of [src/react-datetime.d.ts]

    Shared lemmas for the theorems about single options: the shape of the
    props interface (distinct member names, every member optional), the
    reduction of a one-property literal to its member's check, and that
    every declared type accepts itself. *)

From stdpp Require Import base list option strings gmap.
From S2P Require Import Prelude TsType TsCheck TsScope Library Datetime DatetimeEnv DatetimeModule.

(** The interface declares each member once, and every member is
    optional. *)
Lemma props_members_optional : Forall (fun m => mem_optional m = true) props_members.
Proof. decide_closed. Qed.

Lemma props_members_nodup : NoDup props_members.*1.
Proof. decide_closed. Qed.

Lemma props_members_nonempty : props_members <> [].
Proof. by vm_compute. Qed.

#[export] Hint Resolve props_members_optional
  props_members_nodup props_members_nonempty : datetime.

(** One property checked against the props interface is checked against
    the member of that name. *)
Lemma props_single L f k t :
  literal_assignable (program_env L) (S (S f)) [(k, t)] Props =
  match assoc k props_members with
  | Some (_, T) => assignable (program_env L) (S f) t T
  | None => Some false
  end.
Proof. apply literal_iface_single; auto with datetime. Qed.

(** Each member's declared type is assignable to itself, in the library
    environment, with fuel 4. *)
Lemma props_members_refl :
  Forall (fun m => assignable (program_env lib_env) 4 (mem_ty m) (mem_ty m) = Some true)
    props_members.
Proof. decide_closed. Qed.

(** Reduce a one-property literal to the check against its member. *)
Ltac single_member :=
  rewrite props_single;
  lazymatch goal with
  | |- context [assoc ?k props_members] =>
      let v := eval vm_compute in (assoc k props_members) in
      change (assoc k props_members) with v; cbv iota beta
  end.
