(* ===== verification/DatetimeOptions.v ===== *)
(** * What each option accepts

    Theorems about single options of [DatetimepickerProps], read against
    what the comments of [src/react-datetime.d.ts] say each option takes:
    the [Object]-typed options, the change callbacks typed with
    [string|any], the navigation hook whose falsy return cancels a
    navigation and its parameters, the view-mode options, the format
    options and the [isValidDate] and [onOpen] callbacks.  The date
    options and the render hooks, whose verdicts depend on the library
    typings' members, are in [DatetimeSpec]. *)

From stdpp Require Import base list option strings gmap.
From S2P Require Import Prelude TsType TsCheck Library Jsx Datetime DatetimeEnv DatetimeModule DatetimeFacts.

(** C5: every set of declared options, each given a value of exactly its
    declared type and each named once, type-checks as the attributes of
    the exported component: no option is required and each declared type
    accepts itself (in the library environment, with fuel 4 or more). *)
Theorem props_subset_accepted f lit :
  NoDup lit.*1 ->
  Forall (fun p => (p.1, (true, p.2)) ∈ props_members) lit ->
  jsx_element_ok (program_env lib_env) (4 + f) ReactDatetimeExport.export (jsx_plain lit)
  = Some true.
Proof.
  intros Hnd Hsub. replace (4 + f) with (S (S (2 + f))) by lia.
  remember (jsx_plain lit) as attrs eqn:Ha.
  unfold jsx_element_ok. rewrite component_props_export. simpl. rewrite program_env_Props.
  simpl. subst attrs. rewrite jsx_plain_verdict by apply props_members_optional.
  rewrite bool_decide_true by done. rewrite oand_true_l.
  apply oall_true, Forall_forall. intros p Hp. rewrite elem_of_reverse in Hp.
  rewrite Forall_forall in Hsub. specialize (Hsub p Hp). unfold attribute_verdict.
  rewrite (assoc_NoDup _ _ _ props_members_nodup Hsub).
  pose proof props_members_refl as Hrefl. rewrite Forall_forall in Hrefl.
  apply (assignable_mono _ 4); [lia|]. exact (Hrefl _ Hsub).
Qed.

Lemma props_subset_accepted_witness :
  NoDup ([("open", TBoolean); ("onOpen", TFun [] TVoid)] : list (string * ty)).*1 /\
  Forall (fun p : string * ty => (p.1, (true, p.2)) ∈ props_members)
    [("open", TBoolean); ("onOpen", TFun [] TVoid)] /\
  jsx_element_ok (program_env lib_env) 4 ReactDatetimeExport.export
    (jsx_plain [("open", TBoolean); ("onOpen", TFun [] TVoid)]) = Some true.
Proof.
  assert (H : Forall (fun p : string * ty => (p.1, (true, p.2)) ∈ props_members)
    [("open", TBoolean); ("onOpen", TFun [] TVoid)])
    by (decide_closed).
  assert (Hnd : NoDup ([("open", TBoolean); ("onOpen", TFun [] TVoid)] : list (string * ty)).*1)
    by decide_closed.
  split; [exact Hnd|split; [exact H|]]. exact (props_subset_accepted 0 _ Hnd H).
Defined.

(** C17: [timeConstraints] and [inputProps] are typed [Object]: they accept
    exactly the types that are not [void], whatever their shape, so the
    documented shape [{hours: {min, max, step}}] is not checked. *)
Theorem object_options_accept_non_void L t f :
  L !! "Object" = Some DObject ->
  literal_assignable (program_env L) (S (S (union_depth t + f)))
    [("timeConstraints", t)] Props = Some (not_void t) /\
  literal_assignable (program_env L) (S (S (union_depth t + f)))
    [("inputProps", t)] Props = Some (not_void t).
Proof.
  intros HO. split; single_member; apply assignable_Object; [|lia| |lia];
    genv; exact HO.
Qed.

Lemma object_options_accept_non_void_witness :
  lib_env !! "Object" = Some DObject /\
  literal_assignable (program_env lib_env) 2
    [("timeConstraints", TObj [req "hours" TString])] Props = Some true /\
  literal_assignable (program_env lib_env) 2
    [("inputProps", TObj [req "hours" TString])] Props = Some true.
Proof.
  assert (HO : lib_env !! "Object" = Some DObject) by reflexivity.
  split; [exact HO|].
  exact (object_options_accept_non_void lib_env (TObj [req "hours" TString]) 0 HO).
Defined.

(** C18: [onChange] and [onClose] declare their parameter as
    [string|any], a union with [any]: every callback of at most one
    parameter, of any type and with any return, is accepted. *)
Theorem change_callbacks_accept_any_parameter L x t r f :
  literal_assignable (program_env L) (S (S (S (S (union_depth t + f)))))
    [("onChange", TFun [(x, t)] r)] Props = Some true /\
  literal_assignable (program_env L) (S (S (S (S (union_depth t + f)))))
    [("onClose", TFun [(x, t)] r)] Props = Some true.
Proof.
  split; single_member; rewrite assignable_S; unfold assign_step; cbn -[assignable];
    unfold fun_step; cbn -[assignable]; rewrite assignable_string_any by lia; reflexivity.
Qed.

(** C11: the comment of [onBeforeNavigate] says a falsy return stops the
    navigation, but the declared return type is [string]: a hook
    returning [false] is rejected, while [null] and every string
    (the falsy [""] included) are accepted. *)
Theorem before_navigate_returns L f :
  literal_assignable (program_env L) (S (S (S f)))
    [("onBeforeNavigate", TFun [] TBoolean)] Props = Some false /\
  literal_assignable (program_env L) (S (S (S f)))
    [("onBeforeNavigate", TFun [] TNull)] Props = Some true /\
  (forall s, literal_assignable (program_env L) (S (S (S f)))
    [("onBeforeNavigate", TFun [] (TStrLit s))] Props = Some true).
Proof. split; [|split; [|intros s]]; single_member; reflexivity. Qed.

(** C19: [initialViewMode] and [updateOnView] are typed [string]: the
    four view modes the comments list ('years', 'months', 'days',
    'time') are accepted, and so is every other string. *)
Theorem view_mode_options_accept_any_string L s f :
  literal_assignable (program_env L) (S (S f)) [("initialViewMode", TStrLit s)] Props
    = Some true /\
  literal_assignable (program_env L) (S (S f)) [("updateOnView", TStrLit s)] Props
    = Some true.
Proof. split; single_member; reflexivity. Qed.

(** C22: [onBeforeNavigate] passes three arguments, the third typed
    [Moment]; since [Moment] is unresolved, the third parameter of a hook
    is never checked: a hook whose third parameter has any type is
    accepted.  A hook asking for a fourth parameter is rejected. *)
Theorem before_navigate_parameters L t f :
  L !! "Moment" = None ->
  literal_assignable (program_env L) (S (S (S f)))
    [("onBeforeNavigate", TFun [("nextView", TString); ("currentView", TString);
                                ("viewDate", t)] TString)] Props = Some true /\
  literal_assignable (program_env L) (S (S (S f)))
    [("onBeforeNavigate", TFun [("nextView", TString); ("currentView", TString);
                                ("viewDate", TAny); ("extra", TString)] TString)] Props
    = Some false.
Proof.
  intros HM. split; single_member; [|reflexivity].
  rewrite assignable_S. unfold assign_step. cbn -[assignable]. unfold fun_step.
  cbn -[assignable].
  rewrite (assignable_error_target (program_env L)) by (genv; exact HM).
  reflexivity.
Qed.

Lemma before_navigate_parameters_witness :
  lib_env !! "Moment" = None /\
  literal_assignable (program_env lib_env) 3
    [("onBeforeNavigate", TFun [("nextView", TString); ("currentView", TString);
                                ("viewDate", TNumber)] TString)] Props = Some true.
Proof.
  assert (HM : lib_env !! "Moment" = None) by reflexivity.
  split; [exact HM|]. exact (proj1 (before_navigate_parameters lib_env TNumber 0 HM)).
Defined.

(** C23: [onNavigateBack] and [onNavigateForward] take [(amount: number,
    type: string)] and return [void]: whatever the parameter names and
    the return type, a handler taking only the amount is accepted, one
    taking the two parameters in the other order is rejected. *)
Theorem navigate_step_parameters L f a b r :
  Forall (fun k =>
    literal_assignable (program_env L) (S (S (S f)))
      [(k, TFun [(a, TNumber)] r)] Props = Some true /\
    literal_assignable (program_env L) (S (S (S f)))
      [(k, TFun [(a, TString); (b, TNumber)] r)] Props = Some false)
    ["onNavigateBack"; "onNavigateForward"].
Proof.
  repeat (rewrite Forall_cons; split); [..|by apply Forall_nil];
    split; single_member; reflexivity.
Qed.

(** C24: [isValidDate] takes two [any] parameters and returns [boolean]:
    every predicate of two parameters of any types is accepted, and a
    function returning a [string] is rejected. *)
Theorem is_valid_date_predicates L t1 t2 f :
  literal_assignable (program_env L) (S (S (S f)))
    [("isValidDate", TFun [("current", t1); ("selected", t2)] TBoolean)] Props = Some true /\
  literal_assignable (program_env L) (S (S (S f)))
    [("isValidDate", TFun [("current", t1); ("selected", t2)] TString)] Props = Some false.
Proof.
  split; single_member; rewrite assignable_S; unfold assign_step; cbn -[assignable];
    unfold fun_step; cbn -[assignable]; rewrite !assignable_any_target; reflexivity.
Qed.

(** C25: [onOpen] is [() => void]: a callback of no parameter is
    accepted whatever it returns, and an event-style callback taking one
    parameter is rejected. *)
Theorem on_open_callbacks L r f :
  literal_assignable (program_env L) (S (S (S f))) [("onOpen", TFun [] r)] Props
    = Some true /\
  literal_assignable (program_env L) (S (S (S f)))
    [("onOpen", TFun [("event", TAny)] TVoid)] Props = Some false.
Proof. split; single_member; reflexivity. Qed.

(** C26: [dateFormat] and [timeFormat] are [boolean|string]: every string
    (a moment.js format) and every boolean (on or off) is accepted, a
    [number] is rejected. *)
Theorem format_options L s f :
  Forall (fun k =>
    literal_assignable (program_env L) (S (S (S f))) [(k, TStrLit s)] Props = Some true /\
    literal_assignable (program_env L) (S (S (S f))) [(k, TBoolean)] Props = Some true /\
    literal_assignable (program_env L) (S (S (S f))) [(k, TNumber)] Props = Some false)
    ["dateFormat"; "timeFormat"].
Proof.
  repeat (rewrite Forall_cons; split); [..|by apply Forall_nil];
    (split; [|split]); single_member; reflexivity.
Qed.
