(* ===== verification/DatetimeSpec.v ===== *)
(** * The props check of [src/react-datetime.d.ts] against the declarative relation

    The checker's verdicts of [DatetimeProps] restated with the
    declarative assignability of [TsSpec]: which fresh attribute lists a
    [<DateTime .../>] element accepts, and which values no derivation
    makes acceptable, whatever the fuel: strings and moment.js objects
    for the [Date] options, and functions returning React elements for
    the render hooks, in every library environment whose [Date] and
    [React.Component] have a required member the rejected types lack. *)

From stdpp Require Import base list option strings gmap.
From S2P Require Import Prelude TsType TsCheck TsSpec TsScope Library Datetime DatetimeEnv DatetimeFacts.

(** The checker's verdict on a fresh literal, option by option. *)
Lemma props_literal_iface L f lit :
  NoDup lit.*1 ->
  literal_assignable (program_env L) (S (S f)) lit Props = Some true <->
  Forall (fun p => exists t, assoc p.1 props_members = Some (true, t) /\
                             assignable (program_env L) (S f) p.2 t = Some true) lit.
Proof. apply literal_iface_true; auto with datetime. Qed.

(** The two directions of the declarative verdict. *)
Lemma props_literal_spec_sound L k lit :
  NoDup lit.*1 -> literal_assignable (program_env L) k lit Props = Some true ->
  Forall (fun p => exists t, assoc p.1 props_members = Some (true, t) /\
                             Assignable (program_env L) p.2 t) lit.
Proof.
  intros Hnd Hk. apply (literal_assignable_mono _ k (S (S k))) in Hk; [|lia].
  apply props_literal_iface in Hk; [|done]. eapply Forall_impl; [exact Hk|].
  intros p (t & Ht & Hs). exists t. split; [done|]. by eapply assignable_sound.
Qed.

Lemma props_literal_spec_complete L lit :
  NoDup lit.*1 ->
  Forall (fun p => exists t, assoc p.1 props_members = Some (true, t) /\
                             Assignable (program_env L) p.2 t) lit ->
  exists k, literal_assignable (program_env L) k lit Props = Some true.
Proof.
  intros Hnd H. rewrite Forall_forall in H.
  destruct (fuel_uniform_in (fun k p => exists t, assoc p.1 props_members = Some (true, t) /\
              assignable (program_env L) k p.2 t = Some true) lit) as [k Hk].
  - intros k k' p Hle (t & Ht & Hs). exists t. split; [done|]. by apply (assignable_up _ k).
  - intros p Hp. destruct (H p Hp) as (t & Ht & (k & Hk)%assignable_complete). eauto.
  - exists (S (S k)). apply props_literal_iface; [done|]. apply Forall_forall.
    intros p Hp. destruct (Hk p Hp) as (t & Ht & Hs). exists t. split; [done|].
    apply (assignable_up _ k); [lia|done].
Qed.

(** A single attribute whose type no derivation makes assignable to its
    option's is rejected at every fuel. *)
Lemma literal_rejected L f k s T :
  assoc k props_members = Some (true, T) -> ~ Assignable (program_env L) s T ->
  literal_assignable (program_env L) f [(k, s)] Props <> Some true.
Proof.
  intros Hk Hn Hl. apply props_literal_spec_sound in Hl; [|apply NoDup_singleton].
  apply Forall_inv in Hl as (t & Ht & Hs). cbn [fst snd] in Ht, Hs. rewrite Hk in Ht. by simplify_eq.
Qed.

(** The five render hooks, by option name. *)
Definition render_hooks : list string :=
  ["renderView"; "renderInput"; "renderDay"; "renderMonth"; "renderYear"].

(** C12: [value], [initialValue] and [initialViewDate] are typed [Date];
    their comments say a date string or a moment.js object is accepted,
    but in every library environment where [Date] is an interface with a
    required member that strings and [moment.Moment] lack (as [getTime]
    in lib.d.ts and moment.d.ts), no fuel accepts either, while a [Date]
    is accepted with fuel 2 or more. *)
Theorem date_options_reject_string_and_moment L dh db dm sp f :
  L !! "Date" = Some (DIface dh db) -> dm ∈ db -> mem_optional dm = false ->
  HasProps (program_env L) (TRef "moment.Moment" []) sp -> assoc (mem_name dm) sp = None ->
  Forall (fun k =>
    (forall f', literal_assignable (program_env L) f' [(k, TString)] Props <> Some true) /\
    (forall f', literal_assignable (program_env L) f'
                  [(k, TRef "moment.Moment" [])] Props <> Some true) /\
    literal_assignable (program_env L) (S (S f)) [(k, TRef "Date" [])] Props = Some true)
    ["value"; "initialValue"; "initialViewDate"].
Proof.
  intros HD Hdm Ho Hsp Hna.
  assert (HD' : program_env L !! "Date" = Some (DIface dh db)) by (genv; exact HD).
  assert (Hty : Forall (fun k => assoc k props_members = Some (true, TRef "Date" []))
                  ["value"; "initialValue"; "initialViewDate"]) by decide_closed.
  eapply Forall_impl; [exact Hty|]. intros k Hk. split; [|split].
  - intros f'. apply (literal_rejected _ _ _ _ _ Hk).
    by eapply (iface_missing_inv _ _ _ _ _ _ [] dm); [..|intros ? [=]|exact HD'|constructor| | |].
  - intros f'. apply (literal_rejected _ _ _ _ _ Hk).
    eapply (iface_missing_inv _ _ _ _ _ _ sp dm); [..|intros ? [=]|exact HD'|exact Hsp| | |];
      try done. exact (HasProps_ref_declared _ _ _ _ Hsp).
  - rewrite props_single, Hk, assignable_S. unfold assign_step, ref_step. cbn -[assignable].
    rewrite HD'. by cbn.
Qed.

Lemma date_options_reject_string_and_moment_witness :
  member_env !! "Date" = Some (DIface [] [("getTime", (false, TFun [] TNumber))]) /\
  ("getTime", (false, TFun [] TNumber)) ∈ [("getTime", (false, TFun [] TNumber))] /\
  mem_optional ("getTime", (false, TFun [] TNumber)) = false /\
  HasProps (program_env member_env) (TRef "moment.Moment" [])
    [("format", (false, TFun [] TString))] /\
  assoc (mem_name ("getTime", (false, TFun [] TNumber))) [("format", (false, TFun [] TString))]
    = None /\
  Forall (fun k =>
    (forall f', literal_assignable (program_env member_env) f' [(k, TString)] Props <> Some true) /\
    (forall f', literal_assignable (program_env member_env) f'
                  [(k, TRef "moment.Moment" [])] Props <> Some true) /\
    literal_assignable (program_env member_env) 2 [(k, TRef "Date" [])] Props = Some true)
    ["value"; "initialValue"; "initialViewDate"].
Proof.
  assert (HD : member_env !! "Date" = Some (DIface [] [("getTime", (false, TFun [] TNumber))]))
    by reflexivity.
  assert (Hm : ("getTime", (false, TFun [] TNumber)) ∈ [("getTime", (false, TFun [] TNumber))])
    by (apply list_elem_of_singleton; reflexivity).
  assert (Ho : mem_optional ("getTime", (false, TFun [] TNumber)) = false) by reflexivity.
  assert (Hsp : HasProps (program_env member_env) (TRef "moment.Moment" [])
                  [("format", (false, TFun [] TString))])
    by (apply (props_of_sound _ 2); vm_compute; reflexivity).
  assert (Hna : assoc (mem_name ("getTime", (false, TFun [] TNumber)))
                  [("format", (false, TFun [] TString))] = None) by reflexivity.
  do 5 (split; [assumption|]).
  exact (date_options_reject_string_and_moment member_env _ _ _ _ 0 HD Hm Ho Hsp Hna).
Defined.

(** C13: the render hooks are declared to return [React.Component<any,
    any>], a component instance, while what a render function returns is
    a React element: in every library environment where a component is
    an interface with a required member that an element lacks (as
    [setState] in react.d.ts), no fuel accepts a hook returning
    [React.ReactElement<any>], while one returning [null] ("render
    nothing") or a component is accepted with fuel 3 or more. *)
Theorem render_hooks_return_types L ch cb cm sp f :
  L !! react_Component = Some (DIface ch cb) -> cm ∈ cb -> mem_optional cm = false ->
  HasProps (program_env L) (TRef react_ReactElement [TAny]) sp -> assoc (mem_name cm) sp = None ->
  Forall (fun k =>
    (forall f', literal_assignable (program_env L) f'
                  [(k, TFun [] (TRef react_ReactElement [TAny]))] Props <> Some true) /\
    literal_assignable (program_env L) (S (S (S f))) [(k, TFun [] TNull)] Props = Some true /\
    literal_assignable (program_env L) (S (S (S f)))
      [(k, TFun [] (TRef react_Component [TAny; TAny]))] Props = Some true)
    render_hooks.
Proof.
  intros HC Hcm Ho Hsp Hna.
  assert (HC' : program_env L !! react_Component = Some (DIface ch cb)) by (genv; exact HC).
  assert (Hty : Forall (fun k => exists qs,
                  assoc k props_members = Some (true, TFun qs (TRef react_Component [TAny; TAny])))
                  render_hooks).
  { repeat constructor;
      lazymatch goal with
      | |- exists qs, assoc ?k ?pm = _ =>
          let v := eval vm_compute in (assoc k pm) in change (assoc k pm) with v
      end; eexists; reflexivity. }
  eapply Forall_impl; [exact Hty|]. intros k [qs Hk]. split; [|split].
  - intros f'. apply (literal_rejected _ _ _ _ _ Hk). intros (_ & _ & [[=]|HA])%fun_inv.
    revert HA. eapply (iface_missing_inv _ _ _ _ _ _ sp cm); [..|exact HC'|exact Hsp| | |];
      try done. exact (HasProps_ref_declared _ _ _ _ Hsp).
  - by rewrite props_single, Hk.
  - rewrite props_single, Hk, assignable_S. unfold assign_step. cbn -[assignable].
    rewrite assignable_S. unfold assign_step, ref_step. cbn -[assignable]. rewrite HC'. by cbn.
Qed.

Lemma render_hooks_return_types_witness :
  member_env !! react_Component = Some (DIface [] [("setState", (false, TFun [("state", TAny)] TVoid));
                                                  ("render", (false, TFun [] TAny))]) /\
  ("setState", (false, TFun [("state", TAny)] TVoid)) ∈
    [("setState", (false, TFun [("state", TAny)] TVoid)); ("render", (false, TFun [] TAny))] /\
  mem_optional ("setState", (false, TFun [("state", TAny)] TVoid)) = false /\
  HasProps (program_env member_env) (TRef react_ReactElement [TAny])
    [("type", (false, TAny)); ("props", (false, TAny))] /\
  assoc (mem_name ("setState", (false, TFun [("state", TAny)] TVoid)))
    [("type", (false, TAny)); ("props", (false, TAny))] = None /\
  Forall (fun k =>
    (forall f', literal_assignable (program_env member_env) f'
                  [(k, TFun [] (TRef react_ReactElement [TAny]))] Props <> Some true) /\
    literal_assignable (program_env member_env) 3 [(k, TFun [] TNull)] Props = Some true /\
    literal_assignable (program_env member_env) 3
      [(k, TFun [] (TRef react_Component [TAny; TAny]))] Props = Some true)
    render_hooks.
Proof.
  assert (HC : member_env !! react_Component =
               Some (DIface [] [("setState", (false, TFun [("state", TAny)] TVoid));
                                ("render", (false, TFun [] TAny))])) by reflexivity.
  assert (Hm : ("setState", (false, TFun [("state", TAny)] TVoid)) ∈
                 [("setState", (false, TFun [("state", TAny)] TVoid));
                  ("render", (false, TFun [] TAny))]) by (left; reflexivity).
  assert (Ho : mem_optional ("setState", (false, TFun [("state", TAny)] TVoid)) = false)
    by reflexivity.
  assert (Hsp : HasProps (program_env member_env) (TRef react_ReactElement [TAny])
                  [("type", (false, TAny)); ("props", (false, TAny))])
    by (apply (props_of_sound _ 2); vm_compute; reflexivity).
  assert (Hna : assoc (mem_name ("setState", (false, TFun [("state", TAny)] TVoid)))
                  [("type", (false, TAny)); ("props", (false, TAny))] = None) by reflexivity.
  do 5 (split; [assumption|]).
  exact (render_hooks_return_types member_env _ _ _ _ 0 HC Hm Ho Hsp Hna).
Defined.

(** The declared types of the options are well formed. *)
Lemma props_members_distinct : Forall (fun m => members_distinct (mem_ty m) = true) props_members.
Proof. decide_closed. Qed.

(** C6: a fresh attribute list with distinct names is accepted by the
    checker with some fuel exactly when each attribute names a declared
    option and its type is assignable to the option's declared type in
    the declarative relation of the TypeScript specification. *)
Theorem props_literal_spec L lit :
  NoDup lit.*1 ->
  (exists k, literal_assignable (program_env L) k lit Props = Some true) <->
  Forall (fun p => exists t, assoc p.1 props_members = Some (true, t) /\
                             Assignable (program_env L) p.2 t) lit.
Proof.
  intros Hnd. split; [intros [k Hk]; by apply (props_literal_spec_sound L k)|].
  by apply props_literal_spec_complete.
Qed.

Lemma props_literal_spec_witness :
  NoDup ([("value", TRef "Date" []); ("utc", TBoolean)] : list (string * ty)).*1 /\
  ((exists k, literal_assignable (program_env lib_env) k
               [("value", TRef "Date" []); ("utc", TBoolean)] Props = Some true) <->
   Forall (fun p : string * ty => exists t, assoc p.1 props_members = Some (true, t) /\
             Assignable (program_env lib_env) p.2 t)
     [("value", TRef "Date" []); ("utc", TBoolean)]).
Proof.
  assert (Hnd : NoDup ([("value", TRef "Date" []); ("utc", TBoolean)] : list (string * ty)).*1)
    by decide_closed.
  split; [exact Hnd|]. exact (props_literal_spec lib_env _ Hnd).
Defined.

(** C20: whatever the library environment (the React, moment.js and
    global typings a consumer compiles with, or none of them), a fresh
    attribute list that gives options of distinct names values of exactly
    their declared types is accepted by the checker with enough fuel. *)
Theorem props_declared_types_accepted L lit :
  NoDup lit.*1 ->
  Forall (fun p => assoc p.1 props_members = Some (true, p.2)) lit ->
  exists k, literal_assignable (program_env L) k lit Props = Some true.
Proof.
  intros Hnd H. apply props_literal_spec_complete; [done|].
  eapply Forall_impl; [exact H|]. intros p Hp. exists p.2. split; [done|].
  apply assignable_refl. apply assoc_Some in Hp.
  pose proof props_members_distinct as Hd. rewrite Forall_forall in Hd.
  exact (Hd _ Hp).
Qed.

Lemma props_declared_types_accepted_witness :
  NoDup ([("value", TRef "Date" []); ("onOpen", TFun [] TVoid)] : list (string * ty)).*1 /\
  Forall (fun p : string * ty => assoc p.1 props_members = Some (true, p.2))
    [("value", TRef "Date" []); ("onOpen", TFun [] TVoid)] /\
  exists k, literal_assignable (program_env ∅) k
    [("value", TRef "Date" []); ("onOpen", TFun [] TVoid)] Props = Some true.
Proof.
  assert (Hnd : NoDup ([("value", TRef "Date" []); ("onOpen", TFun [] TVoid)]
                       : list (string * ty)).*1) by decide_closed.
  assert (Hf : Forall (fun p : string * ty => assoc p.1 props_members = Some (true, p.2))
                 [("value", TRef "Date" []); ("onOpen", TFun [] TVoid)]) by decide_closed.
  split; [exact Hnd|split; [exact Hf|]]. exact (props_declared_types_accepted ∅ _ Hnd Hf).
Defined.
