(* ===== verification/DatetimeTerm.v ===== *)
(** * The props check of [src/react-datetime.d.ts] always answers

    Every environment a consumer compiles the file in, with library
    typings that declare no interface of their own, is ranked: the props
    interface names only library types, and [DatetimeComponent] names the
    props interface.  So by [TsTerm.literal_assignable_terminates] the
    check of any attribute list answers once the fuel exceeds a bound
    computed from the types, and by [DatetimeSpec] its answer is the
    declarative verdict. *)

From stdpp Require Import base list option strings gmap.
From S2P Require Import Prelude TsType TsCheck TsSpec TsTerm TsScope Library Datetime DatetimeEnv DatetimeFacts DatetimeSpec.

(** The ranks: the component interface above the props interface. *)
Definition datetime_rank (n : string) : nat :=
  if String.eqb n "ReactDatetime.DatetimeComponent" then 2 else 1.

Lemma program_env_iface L n :
  no_ifaces L -> is_iface (program_env L) n = true ->
  n = "ReactDatetime.DatetimepickerProps" \/ n = "ReactDatetime.DatetimeComponent".
Proof.
  intros HL Hi.
  destruct (decide (n = "ReactDatetime.DatetimepickerProps")) as [|H1]; [by left|].
  destruct (decide (n = "ReactDatetime.DatetimeComponent")) as [|H2]; [by right|].
  unfold is_iface in Hi. rewrite program_env_global in Hi by done.
  pose proof (no_ifaces_is_iface L n HL) as H. unfold is_iface in H. by rewrite H in Hi.
Qed.

(** The props interface names library types only. *)
Lemma props_refs_library :
  Forall (fun r : string * nat => r.1 <> "ReactDatetime.DatetimepickerProps" /\
                                  r.1 <> "ReactDatetime.DatetimeComponent")
    (flat_map ty_refs (iface_types [] props_members)).
Proof. decide_closed. Qed.

Lemma component_resolved :
  resolve_decl ReactDatetime.scope ReactDatetime.DatetimeComponent
  = DIface [TRef react_ComponentClass [Props]] [].
Proof. reflexivity. Qed.

Lemma program_env_ranked L : no_ifaces L -> ranked (program_env L) datetime_rank.
Proof.
  intros HL n h body Hn e r He Hr Hi.
  assert (Hin : r ∈ flat_map ty_refs (iface_types h body)).
  { apply list_elem_of_In, in_flat_map. exists e. split; by apply list_elem_of_In. }
  assert (is_iface (program_env L) n = true) as Hn' by (unfold is_iface; by rewrite Hn).
  destruct (program_env_iface L r.1 HL Hi) as [Hr1|Hr1];
    destruct (program_env_iface L n HL Hn') as [->| ->].
  - rewrite program_env_Props in Hn. injection Hn as <- <-.
    pose proof props_refs_library as Hl. rewrite Forall_forall in Hl. by destruct (Hl r Hin).
  - rewrite Hr1. vm_compute. lia.
  - rewrite program_env_Props in Hn. injection Hn as <- <-.
    pose proof props_refs_library as Hl. rewrite Forall_forall in Hl. by destruct (Hl r Hin).
  - rewrite program_env_Component, component_resolved in Hn. injection Hn as <- <-.
    destruct r as [rn ra]. simpl in Hr1, Hin. subst rn.
    apply elem_of_cons in Hin as [Hin|Hin]; [discriminate|].
    apply elem_of_cons in Hin as [Hin|?%elem_of_nil]; [discriminate|done].
Qed.

Lemma program_env_rank_bound L n :
  no_ifaces L -> is_iface (program_env L) n = true -> datetime_rank n <= 2.
Proof. intros _ _. unfold datetime_rank. destruct (String.eqb n "ReactDatetime.DatetimeComponent"); lia. Qed.

(** C8: whatever library typings without interfaces of their own a
    consumer compiles with, the props check of a fresh attribute list
    with distinct names answers once the fuel exceeds the weights of the
    literal and of the props interface, and it answers [true] exactly when
    every attribute is declaratively assignable to a declared option. *)
Theorem props_check_decided L lit k :
  no_ifaces L -> NoDup lit.*1 ->
  tw (program_env L) 3 (literal_ty lit) + tw (program_env L) 3 Props < k ->
  exists b, literal_assignable (program_env L) k lit Props = Some b /\
    (b = true <-> Forall (fun p => exists t, assoc p.1 props_members = Some (true, t) /\
                                             Assignable (program_env L) p.2 t) lit).
Proof.
  intros HL Hnd Hk.
  destruct (literal_assignable (program_env L) k lit Props) as [b|] eqn:Hb.
  2: { exfalso. refine (literal_assignable_terminates _ datetime_rank 2 k lit Props
         (program_env_ranked L HL) (fun n => program_env_rank_bound L n HL) Hk Hb). }
  exists b. split; [done|]. split.
  - intros ->. by apply (props_literal_spec_sound L k).
  - intros H. destruct (props_literal_spec_complete L lit Hnd H) as [k' Hk'].
    destruct b; [done|]. exfalso.
    pose proof (literal_assignable_mono _ k (k `max` k') lit Props ltac:(lia) false Hb).
    pose proof (literal_assignable_mono _ k' (k `max` k') lit Props ltac:(lia) true Hk').
    congruence.
Qed.

Lemma props_check_decided_witness :
  no_ifaces lib_env /\
  NoDup ([("value", TRef "Date" []); ("utc", TBoolean)] : list (string * ty)).*1 /\
  tw (program_env lib_env) 3 (literal_ty [("value", TRef "Date" []); ("utc", TBoolean)]) +
    tw (program_env lib_env) 3 Props < 95 /\
  exists b, literal_assignable (program_env lib_env) 95
              [("value", TRef "Date" []); ("utc", TBoolean)] Props = Some b /\
    (b = true <-> Forall (fun p : string * ty => exists t,
        assoc p.1 props_members = Some (true, t) /\ Assignable (program_env lib_env) p.2 t)
        [("value", TRef "Date" []); ("utc", TBoolean)]).
Proof.
  assert (HL : no_ifaces lib_env) by decide_closed.
  assert (Hnd : NoDup ([("value", TRef "Date" []); ("utc", TBoolean)] : list (string * ty)).*1)
    by decide_closed.
  assert (Hk : tw (program_env lib_env) 3 (literal_ty [("value", TRef "Date" []); ("utc", TBoolean)]) +
               tw (program_env lib_env) 3 Props < 95) by (vm_compute; lia).
  split; [exact HL|split; [exact Hnd|split; [exact Hk|]]].
  exact (props_check_decided lib_env _ 95 HL Hnd Hk).
Defined.
