(* ===== verification/DatetimeJsx.v ===== *)
(** * The exported component in JSX

    What TypeScript 1.8 accepts as [<DateTime ... />], with the attributes
    checked one by one ([Jsx]): an undeclared attribute is rejected
    unless its name has a hyphen, a spread is checked only on the options
    it names, and an attribute hides the same name in a spread to its
    left. *)

From stdpp Require Import base list option strings gmap.
From S2P Require Import Prelude TsType TsCheck TsSpec TsTerm TsScope Library Jsx Datetime DatetimeEnv DatetimeModule DatetimeFacts DatetimeTerm.

(** JSX on the export is checked against the members of the props
    interface. *)
Lemma jsx_export_members L f attrs :
  jsx_element_ok (program_env L) (S (S f)) ReactDatetimeExport.export attrs =
  jsx_attrs_ok (program_env L) (S (S f)) props_members attrs.
Proof.
  remember attrs as a eqn:Ha. unfold jsx_element_ok. rewrite component_props_export.
  simpl. rewrite program_env_Props. simpl. by subst a.
Qed.

(** C14: an attribute whose name has a hyphen ([data-*], [aria-*]) is
    accepted with a value of any type, although no option has that name. *)
Theorem jsx_hyphenated_accepted L f n t :
  has_hyphen n = true ->
  jsx_element_ok (program_env L) (S (S f)) ReactDatetimeExport.export [JsxAttribute n t]
  = Some true.
Proof.
  intros Hn.
  assert (assoc n props_members = None) as Hnone.
  { apply assoc_None. intros (m & -> & Hm)%list_elem_of_fmap_1.
    assert (Hu : Forall (fun m => has_hyphen (mem_name m) = false) props_members)
      by decide_closed.
    rewrite Forall_forall in Hu.
    specialize (Hu m Hm). unfold mem_name in Hu. congruence. }
  rewrite jsx_export_members. change [JsxAttribute n t] with (jsx_plain [(n, t)]).
  rewrite jsx_plain_verdict by apply props_members_optional.
  change (reverse [(n, t)]) with [(n, t)]. cbn [oall fmap list_fmap fst].
  rewrite bool_decide_true by apply NoDup_singleton. rewrite oand_true_l, oand_true_r.
  unfold attribute_verdict, isUnhyphenatedJsxName. cbn [fst snd]. by rewrite Hnone, Hn.
Qed.

Lemma jsx_hyphenated_accepted_witness :
  has_hyphen "data-date" = true /\
  jsx_element_ok (program_env lib_env) 2 ReactDatetimeExport.export
    [JsxAttribute "data-date" TNumber] = Some true.
Proof.
  assert (H : has_hyphen "data-date" = true) by reflexivity.
  split; [exact H|]. exact (jsx_hyphenated_accepted lib_env 0 _ _ H).
Defined.



(** C16: attributes are checked from right to left and a name set to the
    right hides the same name in a spread to its left (which the element
    does not receive): for every option [k] declared with type [T], a
    spread that gives [k] a type [t1] followed by an attribute [k] of
    type [t2] is judged on [t2] alone, and the two in the other order on
    both [t1] and [t2]. *)
Theorem jsx_attribute_order L f k o T t1 t2 :
  assoc k props_members = Some (o, T) ->
  jsx_element_ok (program_env L) (S (S f)) ReactDatetimeExport.export
    [JsxSpreadAttribute (TObj [req k t1]); JsxAttribute k t2]
    = assignable (program_env L) (S (S f)) t2 T /\
  jsx_element_ok (program_env L) (S (S f)) ReactDatetimeExport.export
    [JsxAttribute k t2; JsxSpreadAttribute (TObj [req k t1])]
    = assignable (program_env L) (S (S f)) t1 T &&? assignable (program_env L) (S (S f)) t2 T.
Proof.
  intros Hk. rewrite !jsx_export_members.
  by apply (jsx_spread_attribute_order _ _ _ props_members_optional k o).
Qed.

Lemma jsx_attribute_order_witness :
  assoc "value" props_members = Some (true, TRef "Date" []) /\
  jsx_element_ok (program_env lib_env) 2 ReactDatetimeExport.export
    [JsxSpreadAttribute (TObj [req "value" TString]); JsxAttribute "value" (TRef "Date" [])]
    = assignable (program_env lib_env) 2 (TRef "Date" []) (TRef "Date" []) /\
  jsx_element_ok (program_env lib_env) 2 ReactDatetimeExport.export
    [JsxAttribute "value" (TRef "Date" []); JsxSpreadAttribute (TObj [req "value" TString])]
    = assignable (program_env lib_env) 2 TString (TRef "Date" []) &&?
      assignable (program_env lib_env) 2 (TRef "Date" []) (TRef "Date" []).
Proof.
  assert (Hk : assoc "value" props_members = Some (true, TRef "Date" [])) by reflexivity.
  split; [exact Hk|]. exact (jsx_attribute_order lib_env 0 _ _ _ _ _ Hk).
Defined.












